(** * ClientRenderer: the page controller of the Markdoc-Hugo integration

    A shallow embedding of
    [markdoc/markdoc-hugo-integration/src/helperModules/ClientRenderer.ts].

    The controller is a singleton holding the reader's preference selections
    and the [if] functions that gate content blocks.  Its methods mutate the
    controller's fields and the DOM; here every method is a function from a
    [World] (controller fields plus document) to a [Completion], which is
    either a normal return or a thrown exception, each with the world as the
    method left it.

    The functions the controller imports from other modules
    ([resolveMinifiedPagePrefs], [reresolveFunctionNode],
    [expandClientFunction], [getChooserHtml]) are the fields of the class
    [Collaborators]; the theorems about the controller hold for every
    instance.  Writes to the console and the registration of event listeners
    leave the modelled state unchanged and are not represented.

    The controller uses plain objects as maps.  Their reads and writes
    follow JavaScript: a read of a key that is not an own property finds
    what [Object.prototype] provides, and an assignment under [__proto__]
    creates no property (module [PlainObject] and [JSRecord.set]). *)

From Stdlib Require Import Ascii String.
From stdpp Require Import gmap strings list fin_maps.

Local Open Scope string_scope.
Local Open Scope stdpp_scope.
Local Open Scope list_scope.

Set Warnings "-register-all".

(** ** Exceptions and completions *)

Inductive Exception :=
| Error (message : string)
| TypeError (message : string).

(** What a call to an imported function gives back. *)
Inductive Result (A : Type) :=
| Ok (a : A)
| Raised (e : Exception).
Arguments Ok {A} a.
Arguments Raised {A} e.

(** How a method of the controller ends; the state is the one reached when
    the method returned or threw. *)
Inductive Completion (S : Type) :=
| Normal (s : S)
| Throw (e : Exception) (s : S).
Arguments Normal {S} s.
Arguments Throw {S} e s.

(** Sequencing of two statements: an exception in the first skips the
    second. *)
Definition andThen {S : Type} (c : Completion S) (k : S -> Completion S)
  : Completion S :=
  match c with
  | Normal s => k s
  | Throw e s => Throw e s
  end.

Infix ">>>" := andThen (at level 61, left associativity).

Definition finalState {S : Type} (c : Completion S) : S :=
  match c with
  | Normal s => s
  | Throw _ s => s
  end.

(** [l.forEach(body)] for a body that may throw: the loop stops at the first
    exception. *)
Fixpoint forEach {A S : Type} (l : list A) (body : S -> A -> Completion S)
  (s : S) : Completion S :=
  match l with
  | [] => Normal s
  | x :: l' =>
      match body s x with
      | Normal s' => forEach l' body s'
      | Throw e s' => Throw e s'
      end
  end.

(** ** Plain objects used as maps

    [selectedValsByPrefId] and [newDisplayStatusByRef] are plain objects
    holding strings and booleans; a finite map holds their own properties.
    Their prototype is [Object.prototype]. *)
Module PlainObject.

(** The names of the properties of [Object.prototype]. *)
Definition prototypeKeys : list string :=
  ["constructor"; "hasOwnProperty"; "isPrototypeOf"; "propertyIsEnumerable";
   "toLocaleString"; "toString"; "valueOf"; "__proto__";
   "__defineGetter__"; "__defineSetter__";
   "__lookupGetter__"; "__lookupSetter__"].

(** What [o[k]] evaluates to: the own property, else the member inherited
    from [Object.prototype] (a function, or for [__proto__] the prototype
    itself: not [undefined], and truthy), else [undefined]. *)
Inductive Read (A : Type) :=
| Undefined
| Own (v : A)
| Inherited.
Arguments Undefined {A}.
Arguments Own {A} v.
Arguments Inherited {A}.

Definition read {A : Type} (o : gmap string A) (k : string) : Read A :=
  match o !! k with
  | Some v => Own v
  | None => if bool_decide (k ∈ prototypeKeys) then Inherited else Undefined
  end.

(** [o[k] = v] for a string or a boolean [v]: an own property is updated,
    a new one is created, except that under [__proto__], when it is not an
    own property, the assignment reaches the setter of [Object.prototype],
    which ignores a value that is not an object. *)
Definition assign {A : Type} (o : gmap string A) (k : string) (v : A)
  : gmap string A :=
  match o !! k with
  | Some _ => <[k := v]> o
  | None => if bool_decide (k = "__proto__") then o else <[k := v]> o
  end.

End PlainObject.

(** ** JavaScript objects whose keys are enumerated

    [ifFunctionsByRef] and the resolved preferences are walked with
    [Object.keys]; they are kept as association lists of their own
    properties in enumeration order, and are only read under keys that
    [Object.keys] returned.  Assigning to an existing key keeps its
    position, assigning to a new key appends it; the values are objects, so
    an assignment under [__proto__], when it is not an own property,
    replaces the prototype of the object and adds no property.  An object
    built from [{}] by assignments therefore never has [__proto__] among
    its keys. *)
Module JSRecord.

Definition t (A : Type) : Type := list (string * A).

Definition keys {A : Type} (o : t A) : list string := o.*1.

Fixpoint get {A : Type} (o : t A) (k : string) : option A :=
  match o with
  | [] => None
  | (k', v) :: o' => if decide (k' = k) then Some v else get o' k
  end.

Fixpoint set {A : Type} (o : t A) (k : string) (v : A) : t A :=
  match o with
  | [] => if decide (k = "__proto__") then [] else [(k, v)]
  | (k', v') :: o' =>
      if decide (k' = k) then (k', v) :: o' else (k', v') :: set o' k v
  end.

End JSRecord.

(** A JavaScript value used as a condition: [null], [undefined] and the
    empty string are falsy. *)
Definition truthy (s : option string) : option string :=
  match s with
  | Some EmptyString => None
  | other => other
  end.

(** ** The DOM

    An element knows its ancestors; its class list and its [innerHTML] are
    mutable and live in the document, keyed by the element's identity, so
    that a class toggled on a block is seen from every heading below it.
    The markup assigned to [innerHTML] is kept as text: parsing it is not
    modelled, so the elements it would create are not added to the document
    and the former descendants of the element are not removed. *)
Inductive Element := mkElement {
  nodeId : nat;
  tagName : string;
  elemId : string;
  attributes : gmap string string;
  textContent : string;
  parentElement : option Element
}.

Record Document := mkDocument {
  allElements : list Element;
  classLists : gmap nat (list string);
  innerHTML : gmap nat string
}.

Definition getAttribute (e : Element) (name : string) : option string :=
  attributes e !! name.

Definition classList (doc : Document) (e : Element) : list string :=
  default [] (classLists doc !! nodeId e).

Definition classList_contains (doc : Document) (e : Element) (token : string)
  : bool :=
  bool_decide (token ∈ classList doc e).

Definition setClassList (doc : Document) (e : Element) (l : list string)
  : Document :=
  {| allElements := allElements doc;
     classLists := <[nodeId e := l]> (classLists doc);
     innerHTML := innerHTML doc |}.

Definition classList_add (doc : Document) (e : Element) (token : string)
  : Document :=
  if classList_contains doc e token then doc
  else setClassList doc e (classList doc e ++ [token]).

Definition classList_remove (doc : Document) (e : Element) (token : string)
  : Document :=
  if classList_contains doc e token
  then setClassList doc e (filter (λ t, t ≠ token) (classList doc e))
  else doc.

Definition setInnerHTML (doc : Document) (e : Element) (html : string)
  : Document :=
  {| allElements := allElements doc;
     classLists := classLists doc;
     innerHTML := <[nodeId e := html]> (innerHTML doc) |}.

Definition getElementById (doc : Document) (i : string) : option Element :=
  List.find (λ e, bool_decide (elemId e = i)) (allElements doc).

Definition getElementsByClassName (doc : Document) (token : string)
  : list Element :=
  filter (λ e, token ∈ classList doc e) (allElements doc).

Fixpoint hasAncestorWithId (i : string) (e : Element) : bool :=
  match parentElement e with
  | None => false
  | Some p => bool_decide (elemId p = i) || hasAncestorWithId i p
  end.

(** The selector
    [#mainContent h2, #mainContent h3, ..., #mainContent h6]. *)
Definition matchesContentHeading (e : Element) : bool :=
  bool_decide (tagName e ∈ ["H2"; "H3"; "H4"; "H5"; "H6"])
  && hasAncestorWithId "mainContent" e.

Definition querySelectorAll_contentHeadings (doc : Document) : list Element :=
  filter (λ e, matchesContentHeading e = true) (allElements doc).

(** ** Numbers, as far as [parseInt(header.tagName[1])] needs them *)
Inductive Number :=
| NaN
| Int (n : nat).

Definition parseIntChar (c : option ascii) : Number :=
  match c with
  | None => NaN
  | Some c =>
      let n := nat_of_ascii c in
      if bool_decide (48 ≤ n ≤ 57)%nat then Int (n - 48) else NaN
  end.

Definition Number_gt (a b : Number) : bool :=
  match a, b with
  | Int x, Int y => bool_decide (y < x)%nat
  | _, _ => false
  end.

Definition Number_lt (a b : Number) : bool := Number_gt b a.

Definition dquote : string := String "034"%char EmptyString.

(** ** Events *)
Inductive EventTarget :=
| OtherTarget
| ElementTarget (node : Element).

Record Event := mkEvent { target : option EventTarget }.

(** ** The imported functions *)
Class Collaborators := {
  MinifiedPrefOptionsConfig : Type;
  MinifiedPagePrefsConfig : Type;
  ResolvedPagePref : Type;
  MinifiedClientFunction : Type;
  ClientFunction : Type;
  (** [resolvedPref.id] and [resolvedPref.currentValue] *)
  pref_id : ResolvedPagePref -> string;
  currentValue : ResolvedPagePref -> string;
  (** [clientFunction.value] *)
  value : ClientFunction -> bool;
  resolveMinifiedPagePrefs :
    MinifiedPagePrefsConfig -> MinifiedPrefOptionsConfig ->
    gmap string string -> Result (JSRecord.t ResolvedPagePref);
  reresolveFunctionNode :
    ClientFunction -> gmap string string -> Result ClientFunction;
  expandClientFunction : MinifiedClientFunction -> Result ClientFunction;
  getChooserHtml : JSRecord.t ResolvedPagePref -> Result string
}.

Section Controller.
Context `{Collaborators}.

(** ** The controller's fields *)
Record ClientRenderer := mkClientRenderer {
  prefOptionsConfig : option MinifiedPrefOptionsConfig;
  pagePrefsConfig : option MinifiedPagePrefsConfig;
  chooserElement : option Element;
  selectedValsByPrefId : gmap string string;
  ifFunctionsByRef : JSRecord.t ClientFunction
}.

Record World := mkWorld {
  this : ClientRenderer;
  document : Document
}.

Definition withSelectedVals (w : World) (vals : gmap string string) : World :=
  {| this :=
       {| prefOptionsConfig := prefOptionsConfig (this w);
          pagePrefsConfig := pagePrefsConfig (this w);
          chooserElement := chooserElement (this w);
          selectedValsByPrefId := vals;
          ifFunctionsByRef := ifFunctionsByRef (this w) |};
     document := document w |}.

Definition withIfFunctions (w : World) (fns : JSRecord.t ClientFunction)
  : World :=
  {| this :=
       {| prefOptionsConfig := prefOptionsConfig (this w);
          pagePrefsConfig := pagePrefsConfig (this w);
          chooserElement := chooserElement (this w);
          selectedValsByPrefId := selectedValsByPrefId (this w);
          ifFunctionsByRef := fns |};
     document := document w |}.

Definition withChooserElement (w : World) (e : Element) : World :=
  {| this :=
       {| prefOptionsConfig := prefOptionsConfig (this w);
          pagePrefsConfig := pagePrefsConfig (this w);
          chooserElement := Some e;
          selectedValsByPrefId := selectedValsByPrefId (this w);
          ifFunctionsByRef := ifFunctionsByRef (this w) |};
     document := document w |}.

Definition withDocument (w : World) (doc : Document) : World :=
  {| this := this w; document := doc |}.

(** ** elementIsHidden

    The loop climbs [parentElement] until it finds the class or runs out of
    ancestors; falling off the end returns [undefined], which the caller
    tests as a condition, hence [false]. *)
Fixpoint elementIsHidden (doc : Document) (element : Element) : bool :=
  if classList_contains doc element "markdoc__hidden" then true
  else
    match parentElement element with
    | Some currentElement => elementIsHidden doc currentElement
    | None => false
    end.

(** ** populateRightNav *)
Definition headerLevel (header : Element) : Number :=
  parseIntChar (String.get 1 (tagName header)).

Definition navEntry (header : Element) : string :=
  "<li><a href=" +:+ dquote +:+ "#" +:+ elemId header +:+ dquote +:+ ">"
  +:+ textContent header +:+ "</a></li>".

(** One turn of [headers.forEach]; the state is [html] and
    [lastSeenLevel]. *)
Definition navStep (doc : Document) (acc : string * Number) (header : Element)
  : string * Number :=
  let '(html, lastSeenLevel) := acc in
  if elementIsHidden doc header then acc
  else
    let level := headerLevel header in
    let html :=
      if Number_gt level lastSeenLevel then html +:+ "<ul>"
      else if Number_lt level lastSeenLevel then html +:+ "</ul>"
      else html in
    (html +:+ navEntry header, level).

Definition rightNavHtml (doc : Document) : string :=
  let html := "<ul>" in
  let headers := querySelectorAll_contentHeadings doc in
  let '(html, _) := foldl (navStep doc) (html, Int 2) headers in
  html +:+ "</ul>".

Definition rightNavMissing : Exception :=
  Error ("Cannot find right nav element with id " +:+ dquote
         +:+ "TableOfContents" +:+ dquote).

Definition populateRightNav (w : World) : Completion World :=
  let html := rightNavHtml (document w) in
  match getElementById (document w) "TableOfContents" with
  | None => Throw rightNavMissing w
  | Some rightNav =>
      Normal (withDocument w (setInnerHTML (document w) rightNav html))
  end.

(** ** rerenderPageContent *)

(** One turn of the loop over [Object.keys(this.ifFunctionsByRef)]; the
    state is [this.ifFunctionsByRef] and [newDisplayStatusByRef].  [ref] is
    an own key of [ifFunctionsByRef], hence not [__proto__]: both
    assignments create or update an own property. *)
Definition reresolveStep (variables : gmap string string)
  (acc : JSRecord.t ClientFunction * gmap string bool) (ref : string)
  : Completion (JSRecord.t ClientFunction * gmap string bool) :=
  let '(fns, newDisplayStatusByRef) := acc in
  match JSRecord.get fns ref with
  | None => Throw (TypeError "Cannot read properties of undefined") acc
  | Some clientFunction =>
      let oldValue := value clientFunction in
      match reresolveFunctionNode clientFunction variables with
      | Raised e => Throw e acc
      | Ok resolvedFunction =>
          let fns := JSRecord.set fns ref resolvedFunction in
          if bool_decide (oldValue ≠ value resolvedFunction)
          then Normal (fns, <[ref := value resolvedFunction]>
                              newDisplayStatusByRef)
          else Normal (fns, newDisplayStatusByRef)
      end
  end.

(** One turn of the loop over the toggleable elements.  [ref] comes from
    the DOM; [newDisplayStatusByRef[ref]] is compared with [undefined] and
    then used as a condition. *)
Definition toggleStep (newDisplayStatusByRef : gmap string bool)
  (doc : Document) (toggleable : Element) : Completion Document :=
  match truthy (getAttribute toggleable "data-if") with
  | None => Throw (Error "No ref found on toggleable element") doc
  | Some ref =>
      match PlainObject.read newDisplayStatusByRef ref with
      | PlainObject.Undefined => Normal doc
      | PlainObject.Own true | PlainObject.Inherited =>
          Normal (classList_remove doc toggleable "markdoc__hidden")
      | PlainObject.Own false =>
          Normal (classList_add doc toggleable "markdoc__hidden")
      end
  end.

Definition rerenderPageContent (w : World) : Completion World :=
  let fns := ifFunctionsByRef (this w) in
  match forEach (JSRecord.keys fns)
                (reresolveStep (selectedValsByPrefId (this w))) (fns, ∅) with
  | Throw e (fns, _) => Throw e (withIfFunctions w fns)
  | Normal (fns, newDisplayStatusByRef) =>
      let w := withIfFunctions w fns in
      let toggleables :=
        getElementsByClassName (document w) "markdoc__toggleable" in
      match forEach toggleables (toggleStep newDisplayStatusByRef)
                    (document w) with
      | Throw e doc => Throw e (withDocument w doc)
      | Normal doc => Normal (withDocument w doc)
      end
  end.

(** ** rerenderChooser *)

(** One turn of the loop over [Object.keys(resolvedPagePrefs)]; the state is
    [this.selectedValsByPrefId]. *)
Definition alignStep (resolvedPagePrefs : JSRecord.t ResolvedPagePref)
  (vals : gmap string string) (resolvedPrefId : string)
  : Completion (gmap string string) :=
  match JSRecord.get resolvedPagePrefs resolvedPrefId with
  | None => Throw (TypeError "Cannot read properties of undefined") vals
  | Some resolvedPref =>
      Normal (PlainObject.assign vals (pref_id resolvedPref)
                (currentValue resolvedPref))
  end.

Definition rerenderChooser (w : World) : Completion World :=
  match pagePrefsConfig (this w), prefOptionsConfig (this w),
        chooserElement (this w) with
  | Some pagePrefs, Some prefOptions, Some chooser =>
      match resolveMinifiedPagePrefs pagePrefs prefOptions
              (selectedValsByPrefId (this w)) with
      | Raised e => Throw e w
      | Ok resolvedPagePrefs =>
          match forEach (JSRecord.keys resolvedPagePrefs)
                        (alignStep resolvedPagePrefs)
                        (selectedValsByPrefId (this w)) with
          | Throw e vals => Throw e (withSelectedVals w vals)
          | Normal vals =>
              let w := withSelectedVals w vals in
              match getChooserHtml resolvedPagePrefs with
              | Raised e => Throw e w
              | Ok newChooserHtml =>
                  Normal (withDocument w
                            (setInnerHTML (document w) chooser newChooserHtml))
              end
          end
      end
  | _, _, _ =>
      Throw (Error "Cannot rerender chooser without pagePrefsConfig, prefOptionsConfig, and chooserElement") w
  end.

(** ** handlePrefSelectionChange *)
Definition handlePrefSelectionChange (e : Event) (w : World)
  : Completion World :=
  match target e with
  | Some (ElementTarget node) =>
      match truthy (getAttribute node "data-pref-id") with
      | None => Normal w
      | Some prefId =>
          match truthy (getAttribute node "data-option-id") with
          | None => Normal w
          | Some optionId =>
              let w :=
                withSelectedVals w
                  (PlainObject.assign (selectedValsByPrefId (this w))
                     prefId optionId) in
              rerenderChooser w >>> rerenderPageContent >>> populateRightNav
          end
      end
  | _ => Normal w
  end.

(** ** initialize *)
Record InitParams := mkInitParams {
  p_prefOptionsConfig : MinifiedPrefOptionsConfig;
  p_pagePrefsConfig : MinifiedPagePrefsConfig;
  p_chooserElement : Element;
  p_selectedValsByPrefId : option (gmap string string);
  p_ifFunctionsByRef : JSRecord.t MinifiedClientFunction
}.

(** One turn of the loop over [Object.keys(p.ifFunctionsByRef)]. *)
Definition expandStep (minified : JSRecord.t MinifiedClientFunction)
  (fns : JSRecord.t ClientFunction) (ref : string)
  : Completion (JSRecord.t ClientFunction) :=
  match JSRecord.get minified ref with
  | None => Throw (TypeError "Cannot read properties of undefined") fns
  | Some m =>
      match expandClientFunction m with
      | Raised e => Throw e fns
      | Ok f => Normal (JSRecord.set fns ref f)
      end
  end.

Definition chooserMissing : Exception :=
  Error ("Cannot find chooser element with id " +:+ dquote
         +:+ "markdoc-chooser" +:+ dquote).

Definition initialize (p : InitParams) (w : World) : Completion World :=
  let renderer fns :=
    {| prefOptionsConfig := Some (p_prefOptionsConfig p);
       pagePrefsConfig := Some (p_pagePrefsConfig p);
       chooserElement := Some (p_chooserElement p);
       selectedValsByPrefId := default ∅ (p_selectedValsByPrefId p);
       ifFunctionsByRef := fns |} in
  match forEach (JSRecord.keys (p_ifFunctionsByRef p))
                (expandStep (p_ifFunctionsByRef p)) [] with
  | Throw e fns => Throw e {| this := renderer fns; document := document w |}
  | Normal fns =>
      let w := {| this := renderer fns; document := document w |} in
      match getElementById (document w) "markdoc-chooser" with
      | None => Throw chooserMissing w
      | Some chooser => Normal (withChooserElement w chooser)
      end
  end.

End Controller.

(** ** Notions the properties are stated with *)

(** Infix test on strings. *)
Fixpoint isPrefix (p s : string) : bool :=
  match p, s with
  | EmptyString, _ => true
  | String a p', String b s' => bool_decide (a = b) && isPrefix p' s'
  | String _ _, EmptyString => false
  end.

Fixpoint isInfix (needle s : string) : bool :=
  isPrefix needle s
  || match s with
     | EmptyString => false
     | String _ s' => isInfix needle s'
     end.

(** The class toggled on content blocks. *)
Definition hiddenClass : string := "markdoc__hidden".

(** The class list of a block after [classList.remove] and after
    [classList.add]. *)
Definition without (token : string) (l : list string) : list string :=
  filter (λ t, t ≠ token) l.

Definition including (token : string) (l : list string) : list string :=
  if bool_decide (token ∈ l) then l else l ++ [token].

Definition noRefFound : Exception := Error "No ref found on toggleable element".

(** The content reference of a toggleable element, if it has one. *)
Definition dataIf (t : Element) : option string :=
  truthy (getAttribute t "data-if").

(** The class list of a block once its new display status is applied. *)
Definition toggled (status : option bool) (l : list string) : list string :=
  match status with
  | None => l
  | Some true => without hiddenClass l
  | Some false => including hiddenClass l
  end.

(** The display status the loop over the toggleable elements finds for a
    reference: the own entry of [newDisplayStatusByRef], a truthy value for
    a name inherited from [Object.prototype], nothing otherwise. *)
Definition displayStatus (st : gmap string bool) (ref : string)
  : option bool :=
  match PlainObject.read st ref with
  | PlainObject.Undefined => None
  | PlainObject.Own v => Some v
  | PlainObject.Inherited => Some true
  end.

(** What a turn of the loop over the toggleable elements does to the
    document when it does not throw. *)
Definition applyToggle (st : gmap string bool) (doc : Document) (t : Element)
  : Document :=
  match dataIf t with
  | None => doc
  | Some ref =>
      match displayStatus st ref with
      | None => doc
      | Some true => classList_remove doc t hiddenClass
      | Some false => classList_add doc t hiddenClass
      end
  end.

Definition hiddenFlag (doc : Document) (b : Element) : bool :=
  classList_contains doc b "markdoc__hidden".

Definition visible (doc : Document) (header : Element) : Prop :=
  elementIsHidden doc header = false.

#[global] Instance visible_dec doc header : Decision (visible doc header) :=
  decide (elementIsHidden doc header = false).

(** What a visible heading puts before its entry: one list opened when its
    level is above the last seen level, one list closed when it is below,
    whatever the distance. *)
Definition listChange (lastSeenLevel level : Number) : string :=
  if Number_gt level lastSeenLevel then "<ul>"
  else if Number_lt level lastSeenLevel then "</ul>"
  else EmptyString.

(** The markup of a run of visible headings. *)
Fixpoint navBody (lastSeenLevel : Number) (headers : list Element) : string :=
  match headers with
  | [] => EmptyString
  | header :: rest =>
      listChange lastSeenLevel (headerLevel header) +:+ navEntry header
      +:+ navBody (headerLevel header) rest
  end.

Section Notions.
Context `{Collaborators}.

(** The display status map after one function has been re-evaluated. *)
Definition statusAfter (f f' : ClientFunction) (ref : string)
  (st : gmap string bool) : gmap string bool :=
  if bool_decide (value f ≠ value f') then <[ref := value f']> st else st.

(** The content blocks the pass walks over. *)
Definition toggleables (w : World) : list Element :=
  getElementsByClassName (document w) "markdoc__toggleable".

(** A reference whose function has another value after the pass. *)
Definition valueChanged (w w' : World) (ref : string) : Prop :=
  ∃ f f', JSRecord.get (ifFunctionsByRef (this w)) ref = Some f
          ∧ JSRecord.get (ifFunctionsByRef (this w')) ref = Some f'
          ∧ value f' ≠ value f.

(** One write of the loop that aligns the selections with the resolved
    preferences. *)
Definition align (vals : gmap string string)
  (entry : string * ResolvedPagePref) : gmap string string :=
  PlainObject.assign vals (pref_id entry.2) (currentValue entry.2).

(** The world once the handler has recorded the clicked option. *)
Definition clicked (w : World) (prefId optionId : string) : World :=
  withSelectedVals w
    (PlainObject.assign (selectedValsByPrefId (this w)) prefId optionId).

End Notions.

(** ** The evaluator and the resolver, as the specification describes them *)
Module SpecModel.

(** Modelled from the spec: the Expression tree of the Expression Model
    (markdoc-static-compiler's [ClientFunction], whose declaration is not
    part of this module).  A comparison node looks a preference up in the
    bindings and compares the selected option with a literal; the other
    nodes are conjunction, disjunction and negation.  Every node caches the
    value of its last evaluation. *)
Inductive Expression :=
| Equals (variable literal : string) (cached : bool)
| NotEquals (variable literal : string) (cached : bool)
| And (l r : Expression) (cached : bool)
| Or (l r : Expression) (cached : bool)
| Not (e : Expression) (cached : bool).

Definition exprValue (e : Expression) : bool :=
  match e with
  | Equals _ _ v | NotEquals _ _ v | And _ _ v | Or _ _ v | Not _ v => v
  end.

Definition unresolvedVariable (variable : string) : Exception :=
  Error ("Unresolved variable: " +:+ variable).

(** Modelled from the spec: [reevaluate(expression, bindings)] of the
    Expression Evaluator ([reresolveFunctionNode] of
    markdoc-static-compiler).  The whole tree is evaluated again against the
    bindings; a preference missing from the bindings is a fatal error. *)
Fixpoint reevaluate (e : Expression) (bindings : gmap string string)
  : Result Expression :=
  match e with
  | Equals x lit _ =>
      match bindings !! x with
      | None => Raised (unresolvedVariable x)
      | Some o => Ok (Equals x lit (bool_decide (o = lit)))
      end
  | NotEquals x lit _ =>
      match bindings !! x with
      | None => Raised (unresolvedVariable x)
      | Some o => Ok (NotEquals x lit (bool_decide (o ≠ lit)))
      end
  | And l r _ =>
      match reevaluate l bindings with
      | Raised e => Raised e
      | Ok l' =>
          match reevaluate r bindings with
          | Raised e => Raised e
          | Ok r' => Ok (And l' r' (exprValue l' && exprValue r'))
          end
      end
  | Or l r _ =>
      match reevaluate l bindings with
      | Raised e => Raised e
      | Ok l' =>
          match reevaluate r bindings with
          | Raised e => Raised e
          | Ok r' => Ok (Or l' r' (exprValue l' || exprValue r'))
          end
      end
  | Not a _ =>
      match reevaluate a bindings with
      | Raised e => Raised e
      | Ok a' => Ok (Not a' (negb (exprValue a')))
      end
  end.

(** Modelled from the spec: the data model of the Preference Resolver.  The
    option template and the default of a preference are interpolated with
    the selections already resolved for the preferences before it. *)
Record PreferenceOption := mkPreferenceOption {
  option_id : string;
  option_label : string
}.

Record PreferenceDefinition := mkPreferenceDefinition {
  definition_id : string;
  definition_options : gmap string string -> list string;
  definition_default : gmap string string -> string
}.

Record ResolvedPreference := mkResolvedPreference {
  resolved_id : string;
  resolved_options : list string;
  resolved_current : string
}.

(** Modelled from the spec: [resolve] of the Preference Resolver
    ([resolveMinifiedPagePrefs] of sharedRendering).  Definitions are
    processed in order; a selected value that is not among the concrete
    options falls back to the default; an empty option list is fatal. *)
Fixpoint resolveFrom (definitions : list PreferenceDefinition)
  (selection resolvedSoFar : gmap string string)
  : Result (JSRecord.t ResolvedPreference) :=
  match definitions with
  | [] => Ok []
  | d :: rest =>
      let options := definition_options d resolvedSoFar in
      match options with
      | [] => Raised (Error ("No options for " +:+ definition_id d))
      | _ =>
          let current :=
            match selection !! definition_id d with
            | Some v =>
                if bool_decide (v ∈ options) then v
                else definition_default d resolvedSoFar
            | None => definition_default d resolvedSoFar
            end in
          match resolveFrom rest selection
                  (<[definition_id d := current]> resolvedSoFar) with
          | Raised e => Raised e
          | Ok resolved =>
              Ok ((definition_id d,
                   {| resolved_id := definition_id d;
                      resolved_options := options;
                      resolved_current := current |}) :: resolved)
          end
      end
  end.

Definition resolve (definitions : list PreferenceDefinition)
  (options : list PreferenceOption) (selection : gmap string string)
  : Result (JSRecord.t ResolvedPreference) :=
  resolveFrom definitions selection ∅.

(** Modelled from the spec: the chooser markup is outside the core; one
    line per preference stands for it. *)
Definition chooserMarkup (resolved : JSRecord.t ResolvedPreference)
  : Result string :=
  Ok (foldr (λ kv html,
               "<div data-pref-id=" +:+ dquote +:+ resolved_id kv.2 +:+ dquote
               +:+ ">" +:+ resolved_current kv.2 +:+ "</div>" +:+ html)
            EmptyString resolved).

(** Modelled from the spec: the codec of the compact encoding is an external
    collaborator; the compact form is taken to be the tree itself. *)
Definition decode (e : Expression) : Result Expression := Ok e.

Definition collaborators : Collaborators :=
  {| MinifiedPrefOptionsConfig := list PreferenceOption;
     MinifiedPagePrefsConfig := list PreferenceDefinition;
     ResolvedPagePref := ResolvedPreference;
     MinifiedClientFunction := Expression;
     ClientFunction := Expression;
     pref_id := resolved_id;
     currentValue := resolved_current;
     value := exprValue;
     resolveMinifiedPagePrefs := resolve;
     reresolveFunctionNode := reevaluate;
     expandClientFunction := decode;
     getChooserHtml := chooserMarkup |}.

End SpecModel.

(** ** A sample page

    Two preferences, [os] and [pkg]; the options of [pkg] depend on [os].
    One content block, gated on [pkg == windows-beta], holds the heading
    [B]; the headings [A] and [C] are always shown. *)
Module SamplePage.
Import SpecModel.

Definition element (n : nat) (tag i : string) (attrs : list (string * string))
  (text : string) (parent : option Element) : Element :=
  {| nodeId := n; tagName := tag; elemId := i;
     attributes := list_to_map attrs; textContent := text;
     parentElement := parent |}.

Definition mainContent : Element :=
  element 1 "DIV" "mainContent" [] "A B C" None.
Definition headingA : Element :=
  element 2 "H2" "a" [] "A" (Some mainContent).
Definition blockB : Element :=
  element 3 "DIV" EmptyString [("data-if", "ref-b")] "B" (Some mainContent).
Definition headingB : Element :=
  element 4 "H3" "b" [] "B" (Some blockB).
Definition headingC : Element :=
  element 5 "H2" "c" [] "C" (Some mainContent).
Definition rightNav : Element :=
  element 6 "NAV" "TableOfContents" [] EmptyString None.
Definition chooser : Element :=
  element 7 "DIV" "markdoc-chooser" [] EmptyString None.
(** A deep heading, two levels below [A]. *)
Definition headingD : Element :=
  element 8 "H4" "d" [] "D" (Some mainContent).
(** A toggleable block that carries no [data-if] attribute. *)
Definition blockNoRef : Element :=
  element 9 "DIV" EmptyString [] EmptyString (Some mainContent).

Definition page : Document :=
  {| allElements :=
       [mainContent; headingA; blockB; headingB; headingC; rightNav; chooser];
     classLists :=
       {[ 3 := ["markdoc__toggleable"; "markdoc__hidden"] ]};
     innerHTML := ∅ |}.

(** The same headings, with the class put on [B] itself. *)
Definition pageHiddenHeading : Document :=
  {| allElements :=
       [mainContent; headingA; blockB; headingB; headingC; rightNav; chooser];
     classLists :=
       {[ 3 := ["markdoc__toggleable"]; 4 := ["markdoc__hidden"] ]};
     innerHTML := ∅ |}.

(** [A] at level 2 followed by [D] at level 4. *)
Definition pageDeepHeading : Document :=
  {| allElements := [mainContent; headingA; headingD; rightNav; chooser];
     classLists := ∅;
     innerHTML := ∅ |}.

Definition pageNoRightNav : Document :=
  {| allElements := [mainContent; headingA; chooser];
     classLists := ∅;
     innerHTML := ∅ |}.

Definition pageBlockNoRef : Document :=
  {| allElements := [mainContent; blockNoRef; rightNav; chooser];
     classLists := {[ 9 := ["markdoc__toggleable"] ]};
     innerHTML := ∅ |}.

Definition os : PreferenceDefinition :=
  {| definition_id := "os";
     definition_options := λ _, ["linux"; "windows"];
     definition_default := λ _, "linux" |}.

Definition pkg : PreferenceDefinition :=
  {| definition_id := "pkg";
     definition_options := λ resolved,
       let o := default "linux" (resolved !! "os") in
       [o +:+ "-stable"; o +:+ "-beta"];
     definition_default := λ resolved,
       default "linux" (resolved !! "os") +:+ "-stable" |}.

Definition gateB : Expression := Equals "pkg" "windows-beta" false.

Definition definitions : list PreferenceDefinition := [os; pkg].
Definition optionDefinitions : list PreferenceOption := [].
Definition functions : JSRecord.t Expression := [("ref-b", gateB)].

Definition params : @InitParams collaborators :=
  @mkInitParams collaborators optionDefinitions definitions chooser None
    functions.

Definition renderer (vals : gmap string string)
  (fns : JSRecord.t Expression) : @ClientRenderer collaborators :=
  @mkClientRenderer collaborators (Some optionDefinitions) (Some definitions)
    (Some chooser) vals fns.

(** The controller before [initialize]. *)
Definition uninitialized : @ClientRenderer collaborators :=
  @mkClientRenderer collaborators None None None ∅ [].

Definition ready : @World collaborators :=
  {| this := renderer ∅ functions; document := page |}.

(** The reader has picked [windows] and [windows-beta]; the functions have
    not been re-evaluated yet. *)
Definition chosen : gmap string string :=
  {[ "os" := "windows"; "pkg" := "windows-beta" ]}.

Definition selected : @World collaborators :=
  {| this := renderer chosen functions; document := page |}.

(** The same controller on a page rendered without the block. *)
Definition pruned : @World collaborators :=
  {| this := renderer chosen functions; document := pageDeepHeading |}.

(** What the resolver answers once [os] is [windows]. *)
Definition resolvedWindows : JSRecord.t ResolvedPreference :=
  [("os", {| resolved_id := "os";
             resolved_options := ["linux"; "windows"];
             resolved_current := "windows" |});
   ("pkg", {| resolved_id := "pkg";
              resolved_options := ["windows-stable"; "windows-beta"];
              resolved_current := "windows-stable" |})].

(** The page whose block has no Expression in the controller. *)
Definition orphaned : @World collaborators :=
  {| this := renderer ∅ []; document := page |}.

Definition pill (pref opt : string) : Element :=
  element 100 "BUTTON" EmptyString
    [("data-pref-id", pref); ("data-option-id", opt)] opt (Some chooser).

Definition click (pref opt : string) : Event :=
  {| target := Some (ElementTarget (pill pref opt)) |}.

(** A pill whose option attribute is missing. *)
Definition clickNoOption : Event :=
  {| target :=
       Some (ElementTarget
               (element 101 "BUTTON" EmptyString [("data-pref-id", "os")]
                  EmptyString (Some chooser))) |}.

End SamplePage.


(** ** Notions and pages for the error paths *)

(** [n] identifies the element or one of its ancestors. *)
Fixpoint hasAncestorOrSelf (n : nat) (e : Element) : bool :=
  bool_decide (nodeId e = n)
  || match parentElement e with
     | Some p => hasAncestorOrSelf n p
     | None => false
     end.

Definition cannotRerender : Exception :=
  Error "Cannot rerender chooser without pagePrefsConfig, prefOptionsConfig, and chooserElement".

(** Whether a method returned. *)
Definition returned {S : Type} (c : Completion S) : bool :=
  match c with
  | Normal _ => true
  | Throw _ _ => false
  end.

Section Dispatch.
Context `{Collaborators}.

(** The clicks of a reader, handled one after the other.  An exception
    thrown by the handler ends that click only: the next click finds the
    controller and the document as the failed one left them. *)
Definition handleAll (events : list Event) (w : World) : World :=
  foldl (λ w e, finalState (handlePrefSelectionChange e w)) w events.

End Dispatch.

Module ErrorPages.
Import SpecModel SamplePage.

(** The block of the sample page followed by a block without [data-if]. *)
Definition pageTwoBlocks : Document :=
  {| allElements :=
       [mainContent; headingA; blockB; headingB; blockNoRef; rightNav; chooser];
     classLists :=
       {[ 3 := ["markdoc__toggleable"; "markdoc__hidden"];
          9 := ["markdoc__toggleable"] ]};
     innerHTML := ∅ |}.

Definition twoBlocks : @World collaborators :=
  {| this := renderer chosen functions; document := pageTwoBlocks |}.

(** A page whose only heading sits in the hidden block. *)
Definition pageOnlyHiddenHeading : Document :=
  {| allElements := [mainContent; blockB; headingB; rightNav; chooser];
     classLists :=
       {[ 3 := ["markdoc__toggleable"; "markdoc__hidden"] ]};
     innerHTML := ∅ |}.

(** A page without the chooser container. *)
Definition pageNoChooser : Document :=
  {| allElements := [mainContent; headingA; rightNav];
     classLists := ∅;
     innerHTML := ∅ |}.

(** The sample page, shown with its block visible although the function
    says hidden. *)
Definition pageShown : Document :=
  {| allElements :=
       [mainContent; headingA; blockB; headingB; headingC; rightNav; chooser];
     classLists := {[ 3 := ["markdoc__toggleable"] ]};
     innerHTML := ∅ |}.

(** The block is shown and its function says so, but the reader is back on
    [linux]. *)
Definition shownFunctions : JSRecord.t Expression :=
  [("ref-b", Equals "pkg" "windows-beta" true)].

Definition linuxChosen : gmap string string :=
  {[ "os" := "linux"; "pkg" := "linux-stable" ]}.

Definition hiding : @World collaborators :=
  {| this := renderer linuxChosen shownFunctions; document := pageShown |}.

(** The controller of the sample page on a page without the navigation
    container. *)
Definition noNav : @World collaborators :=
  {| this := renderer ∅ functions; document := pageNoRightNav |}.

(** A preference whose option list is empty. *)
Definition noOptions : PreferenceDefinition :=
  {| definition_id := "os";
     definition_options := λ _, [];
     definition_default := λ _, "linux" |}.

Definition brokenDefinitions : list PreferenceDefinition := [noOptions].

Definition misconfigured : @World collaborators :=
  {| this :=
       @mkClientRenderer collaborators (Some optionDefinitions)
         (Some brokenDefinitions) (Some chooser) ∅ functions;
     document := page |}.

(** Collaborators that fail: a codec that rejects a tree whose cached value
    is set, and a chooser template that cannot be rendered. *)
Definition strictDecode (e : Expression) : Result Expression :=
  if exprValue e then Raised (Error "Cannot expand function") else Ok e.

Definition noMarkup (resolved : JSRecord.t ResolvedPreference)
  : Result string :=
  Raised (Error "Cannot render chooser").

Definition strict : Collaborators :=
  {| MinifiedPrefOptionsConfig := list PreferenceOption;
     MinifiedPagePrefsConfig := list PreferenceDefinition;
     ResolvedPagePref := ResolvedPreference;
     MinifiedClientFunction := Expression;
     ClientFunction := Expression;
     pref_id := resolved_id;
     currentValue := resolved_current;
     value := exprValue;
     resolveMinifiedPagePrefs := resolve;
     reresolveFunctionNode := reevaluate;
     expandClientFunction := strictDecode;
     getChooserHtml := noMarkup |}.

Definition strictReady : @World strict :=
  {| this :=
       @mkClientRenderer strict (Some optionDefinitions) (Some definitions)
         (Some chooser) ∅ functions;
     document := page |}.

Definition strictUninitialized : @World strict :=
  {| this := @mkClientRenderer strict None None None ∅ [];
     document := page |}.

(** Three encoded functions; the second one is rejected by the codec. *)
Definition encoded : JSRecord.t Expression :=
  [("ref-a", Equals "os" "linux" false);
   ("ref-x", Equals "os" "windows" true);
   ("ref-c", Equals "pkg" "linux-beta" false)].

Definition strictParams : @InitParams strict :=
  @mkInitParams strict optionDefinitions definitions chooser None encoded.

(** A pill whose option attribute is empty. *)
Definition clickEmptyOption : Event :=
  {| target :=
       Some (ElementTarget
               (element 102 "BUTTON" EmptyString
                  [("data-pref-id", "os"); ("data-option-id", EmptyString)]
                  EmptyString (Some chooser))) |}.

End ErrorPages.

(** ** Pages and inputs that use names of [Object.prototype] *)
Module PrototypeNames.
Import SpecModel SamplePage ErrorPages.

(** A block whose content reference is [toString]. *)
Definition blockToString : Element :=
  element 10 "DIV" EmptyString [("data-if", "toString")] "T"
    (Some mainContent).

Definition pageToString : Document :=
  {| allElements := [mainContent; headingA; blockToString; rightNav; chooser];
     classLists := {[ 10 := ["markdoc__toggleable"] ]};
     innerHTML := ∅ |}.

(** The block is shown and its function says so, but the reader is on
    [linux]. *)
Definition toStringFunctions : JSRecord.t Expression :=
  [("toString", Equals "pkg" "windows-beta" true)].

Definition namedToString : @World collaborators :=
  {| this := renderer linuxChosen toStringFunctions;
     document := pageToString |}.

(** The same block, hidden, with a function that says so and stays so. *)
Definition pageToStringHidden : Document :=
  {| allElements := [mainContent; headingA; blockToString; rightNav; chooser];
     classLists := {[ 10 := ["markdoc__toggleable"; "markdoc__hidden"] ]};
     innerHTML := ∅ |}.

Definition settledToString : @World collaborators :=
  {| this :=
       renderer linuxChosen [("toString", Equals "pkg" "windows-beta" false)];
     document := pageToStringHidden |}.

(** An input of [initialize] with an entry under [__proto__], as
    [JSON.parse] builds it. *)
Definition protoEncoded : JSRecord.t Expression :=
  [("ref-b", gateB); ("__proto__", Equals "os" "linux" false)].

Definition protoParams : @InitParams collaborators :=
  @mkInitParams collaborators optionDefinitions definitions chooser None
    protoEncoded.

(** A preference whose id is [__proto__]. *)
Definition protoPreference : PreferenceDefinition :=
  {| definition_id := "__proto__";
     definition_options := λ _, ["on"; "off"];
     definition_default := λ _, "on" |}.

Definition protoDefinitions : list PreferenceDefinition :=
  [os; protoPreference].

Definition protoReady : @World collaborators :=
  {| this :=
       @mkClientRenderer collaborators (Some optionDefinitions)
         (Some protoDefinitions) (Some chooser) ∅ [];
     document := page |}.

(** What the resolver answers for these definitions. *)
Definition resolvedProto : JSRecord.t ResolvedPreference :=
  [("os", {| resolved_id := "os";
             resolved_options := ["linux"; "windows"];
             resolved_current := "linux" |});
   ("__proto__", {| resolved_id := "__proto__";
                    resolved_options := ["on"; "off"];
                    resolved_current := "on" |})].

End PrototypeNames.

(** * Properties *)

(** ** Enumerated objects *)
Section JSRecordFacts.
Context {A : Type}.
Implicit Types (o : JSRecord.t A) (k : string) (v : A).

Lemma get_is_Some o k : is_Some (JSRecord.get o k) ↔ k ∈ JSRecord.keys o.
Proof.
  unfold JSRecord.keys. induction o as [|[k' v'] o IH]; simpl.
  - split; [intros [? ?]; discriminate | intros Hin; by apply elem_of_nil in Hin].
  - rewrite elem_of_cons. destruct (decide (k' = k)) as [->|Hne].
    + split; eauto.
    + rewrite IH. split; [by right | intros [?|?]; [congruence | done]].
Qed.

Lemma get_None o k : JSRecord.get o k = None ↔ k ∉ JSRecord.keys o.
Proof. rewrite <- get_is_Some, eq_None_not_Some. done. Qed.

Lemma get_set_eq o k v :
  is_Some (JSRecord.get o k) ∨ k ≠ "__proto__" →
  JSRecord.get (JSRecord.set o k v) k = Some v.
Proof.
  induction o as [|[k' v'] o IH]; simpl; intros Hk.
  - destruct Hk as [[? ?]|Hk]; [discriminate|].
    rewrite decide_False by done. simpl. by rewrite decide_True.
  - destruct (decide (k' = k)) as [->|Hne]; simpl.
    + by rewrite decide_True.
    + rewrite decide_False by done. by apply IH.
Qed.

Lemma get_set_ne o k k' v :
  k ≠ k' → JSRecord.get (JSRecord.set o k v) k' = JSRecord.get o k'.
Proof.
  intros Hne. induction o as [|[k0 v0] o IH]; simpl.
  - destruct (decide (k = "__proto__")); simpl; [done|].
    by rewrite decide_False.
  - destruct (decide (k0 = k)) as [->|Hne0]; simpl.
    + by rewrite !decide_False.
    + destruct (decide (k0 = k')); [done | apply IH].
Qed.

Lemma keys_set_present o k v :
  k ∈ JSRecord.keys o → JSRecord.keys (JSRecord.set o k v) = JSRecord.keys o.
Proof.
  unfold JSRecord.keys. induction o as [|[k' v'] o IH]; simpl; intros Hin.
  - by apply elem_of_nil in Hin.
  - destruct (decide (k' = k)) as [->|Hne]; simpl; [done|].
    f_equal. apply IH. apply elem_of_cons in Hin as [?|?]; [congruence | done].
Qed.

Lemma keys_set_fresh o k v :
  k ∉ JSRecord.keys o → k ≠ "__proto__" →
  JSRecord.keys (JSRecord.set o k v) = JSRecord.keys o ++ [k].
Proof.
  unfold JSRecord.keys.
  induction o as [|[k' v'] o IH]; simpl; intros Hin Hproto.
  - by rewrite decide_False.
  - apply not_elem_of_cons in Hin as [Hne Hin].
    rewrite decide_False by congruence. simpl. f_equal. by apply IH.
Qed.

(** Assigning under [__proto__] adds no key. *)
Lemma set_proto o v :
  "__proto__" ∉ JSRecord.keys o → JSRecord.set o "__proto__" v = o.
Proof.
  unfold JSRecord.keys. induction o as [|[k' v'] o IH]; simpl; intros Hin.
  - done.
  - apply not_elem_of_cons in Hin as [Hne Hin].
    rewrite decide_False by congruence. f_equal. by apply IH.
Qed.

Lemma set_get_id o k v : JSRecord.get o k = Some v → JSRecord.set o k v = o.
Proof.
  induction o as [|[k' v'] o IH]; simpl; [discriminate|].
  destruct (decide (k' = k)) as [->|Hne].
  - by intros [= ->].
  - intros Hg. f_equal. by apply IH.
Qed.

Lemma get_elem_of o k v :
  NoDup (JSRecord.keys o) → (k, v) ∈ o → JSRecord.get o k = Some v.
Proof.
  unfold JSRecord.keys. induction o as [|[k' v'] o IH]; simpl; intros Hnd Hin.
  - by apply elem_of_nil in Hin.
  - apply NoDup_cons in Hnd as [Hk' Hnd].
    apply elem_of_cons in Hin as [[= -> ->]|Hin].
    + by rewrite decide_True.
    + rewrite decide_False; [by apply IH|].
      intros ->. apply Hk'. by apply (list_elem_of_fmap_2 fst _ (k, v)).
Qed.

End JSRecordFacts.

(** ** Plain objects *)
Section PlainObjectFacts.
Context {A : Type}.
Implicit Types (o : gmap string A) (k : string) (v : A).

Lemma assign_cases o k v :
  PlainObject.assign o k v = o ∨ PlainObject.assign o k v = <[k := v]> o.
Proof.
  unfold PlainObject.assign. destruct (o !! k); [by right|].
  case_bool_decide; [by left | by right].
Qed.

Lemma assign_insert o k v :
  k ≠ "__proto__" ∨ is_Some (o !! k) →
  PlainObject.assign o k v = <[k := v]> o.
Proof.
  unfold PlainObject.assign. intros Hk. destruct (o !! k) as [v0|]; [done|].
  destruct Hk as [Hk|[? ?]]; [|discriminate].
  by rewrite bool_decide_eq_false_2.
Qed.

Lemma assign_proto o v :
  o !! "__proto__" = None → PlainObject.assign o "__proto__" v = o.
Proof. unfold PlainObject.assign. by intros ->. Qed.

Lemma lookup_assign_ne o k k' v :
  k ≠ k' → PlainObject.assign o k v !! k' = o !! k'.
Proof.
  intros Hne. destruct (assign_cases o k v) as [->| ->]; [done|].
  by rewrite lookup_insert_ne.
Qed.

Lemma lookup_assign_eq o k v :
  k ≠ "__proto__" ∨ is_Some (o !! k) →
  PlainObject.assign o k v !! k = Some v.
Proof. intros Hk. by rewrite assign_insert, lookup_insert_eq. Qed.

Lemma lookup_assign_is_Some o k k' v :
  is_Some (o !! k') → is_Some (PlainObject.assign o k v !! k').
Proof.
  intros Hk'. destruct (assign_cases o k v) as [->| ->]; [done|].
  rewrite lookup_insert. by case_decide.
Qed.

End PlainObjectFacts.

Lemma displayStatus_own (st : gmap string bool) ref v :
  st !! ref = Some v → displayStatus st ref = Some v.
Proof. unfold displayStatus, PlainObject.read. by intros ->. Qed.

Lemma displayStatus_plain (st : gmap string bool) ref :
  ref ∉ PlainObject.prototypeKeys → displayStatus st ref = st !! ref.
Proof.
  intros Hplain. unfold displayStatus, PlainObject.read.
  destruct (st !! ref); [done|]. by rewrite bool_decide_eq_false_2.
Qed.

Lemma displayStatus_inherited (st : gmap string bool) ref :
  ref ∈ PlainObject.prototypeKeys → st !! ref = None →
  displayStatus st ref = Some true.
Proof.
  intros Hin Hst. unfold displayStatus, PlainObject.read.
  by rewrite Hst, bool_decide_eq_true_2.
Qed.

(** ** Loops *)
Section ForEachFacts.
Context {A S : Type}.
Implicit Types (l : list A) (body : S → A → Completion S) (s : S).

Lemma forEach_invariant (P : S → Prop) l body s :
  P s →
  (∀ s x, x ∈ l → P s → P (finalState (body s x))) →
  P (finalState (forEach l body s)).
Proof.
  revert s. induction l as [|x l IH]; simpl; intros s Hs Hbody; [done|].
  pose proof (Hbody s x (list_elem_of_here _ _) Hs) as Hx.
  destruct (body s x) as [s'|e s']; simpl in *; [|done].
  apply IH; [done|]. intros s0 y Hy. apply Hbody. by apply list_elem_of_further.
Qed.

Lemma forEach_all_normal l body s (step : S → A → S) :
  (∀ s x, x ∈ l → body s x = Normal (step s x)) →
  forEach l body s = Normal (foldl step s l).
Proof.
  revert s. induction l as [|x l IH]; simpl; intros s Hbody; [done|].
  rewrite Hbody by apply list_elem_of_here.
  apply IH. intros s0 y Hy. apply Hbody. by apply list_elem_of_further.
Qed.

End ForEachFacts.

Lemma returned_finalState {S : Type} (c : Completion S) :
  returned c = true → c = Normal (finalState c).
Proof. destruct c; [done | discriminate]. Qed.

(** ** The loop over the [if] functions *)
Section ReresolveLoop.
Context `{Collaborators}.
Implicit Types (fns : JSRecord.t ClientFunction) (st : gmap string bool).
Implicit Types (vars : gmap string string) (ref : string).

Lemma reresolveStep_cases vars fns st ref :
  (∃ e, reresolveStep vars (fns, st) ref = Throw e (fns, st))
  ∨ (∃ f f', JSRecord.get fns ref = Some f
             ∧ reresolveFunctionNode f vars = Ok f'
             ∧ reresolveStep vars (fns, st) ref
               = Normal (JSRecord.set fns ref f', statusAfter f f' ref st)).
Proof.
  unfold reresolveStep, statusAfter.
  destruct (JSRecord.get fns ref) as [f|]; [|left; eauto].
  destruct (reresolveFunctionNode f vars) as [f'|e] eqn:Hres; [|left; eauto].
  right. exists f, f'. split; [done|]. split; [done|].
  by destruct (bool_decide (value f ≠ value f')).
Qed.

#[local] Arguments reresolveStep : simpl never.

Lemma forEach_reresolve_keys vars ks fns st :
  JSRecord.keys (finalState (forEach ks (reresolveStep vars) (fns, st))).1
  = JSRecord.keys fns.
Proof.
  apply (forEach_invariant (λ acc, JSRecord.keys acc.1 = JSRecord.keys fns));
    [done|].
  intros [fns1 st1] ref _ Hkeys.
  destruct (reresolveStep_cases vars fns1 st1 ref)
    as [[e He]|(f & f' & Hget & _ & He)]; rewrite He; simpl in *; [done|].
  rewrite keys_set_present; [done|]. apply get_is_Some. eauto.
Qed.

Lemma forEach_reresolve_partial vars ks fns st ref :
  NoDup ks →
  let fns' := (finalState (forEach ks (reresolveStep vars) (fns, st))).1 in
  (ref ∉ ks → JSRecord.get fns' ref = JSRecord.get fns ref)
  ∧ (∀ f', JSRecord.get fns' ref = Some f' →
       ∃ f, JSRecord.get fns ref = Some f
            ∧ (f' = f ∨ reresolveFunctionNode f vars = Ok f')).
Proof.
  revert fns st. induction ks as [|k ks IH]; simpl; intros fns st Hnd.
  - split; [done|]. intros f' Hf'. exists f'. auto.
  - apply NoDup_cons in Hnd as [Hk Hnd].
    destruct (reresolveStep_cases vars fns st k)
      as [[e He]|(f & f1 & Hget & Hres & He)]; rewrite He; simpl.
    + split; [done|]. intros f' Hf'. exists f'. auto.
    + destruct (IH (JSRecord.set fns k f1) (statusAfter f f1 k st) Hnd)
        as [IHout IHin].
      split.
      * intros [Hne Hnot]%not_elem_of_cons.
        rewrite IHout by done. by apply get_set_ne.
      * intros f' Hf'. destruct (decide (k = ref)) as [->|Hne].
        -- rewrite IHout, get_set_eq in Hf' by eauto.
           injection Hf' as <-. exists f. auto.
        -- destruct (IHin f' Hf') as (f0 & Hf0 & Hor).
           rewrite get_set_ne in Hf0 by done. eauto.
Qed.

Lemma forEach_reresolve_spec vars ks fns st fns' st' ref :
  NoDup ks →
  forEach ks (reresolveStep vars) (fns, st) = Normal (fns', st') →
  (ref ∈ ks →
     ∃ f f', JSRecord.get fns ref = Some f
             ∧ reresolveFunctionNode f vars = Ok f'
             ∧ JSRecord.get fns' ref = Some f'
             ∧ st' !! ref = statusAfter f f' ref st !! ref)
  ∧ (ref ∉ ks →
       JSRecord.get fns' ref = JSRecord.get fns ref ∧ st' !! ref = st !! ref).
Proof.
  revert fns st. induction ks as [|k ks IH]; simpl; intros fns st Hnd Hrun.
  - injection Hrun as <- <-. split; [by intros ?%elem_of_nil | done].
  - apply NoDup_cons in Hnd as [Hk Hnd].
    destruct (reresolveStep_cases vars fns st k)
      as [[e He]|(f & f1 & Hget & Hres & Hstep)]; rewrite ?He, ?Hstep in Hrun;
      [discriminate|].
    destruct (IH _ _ Hnd Hrun) as [IHin IHout].
    split.
    + intros [->|Hin]%elem_of_cons.
      * destruct (IHout Hk) as [Hg Hs].
        exists f, f1. by rewrite Hg, Hs, get_set_eq by eauto.
      * assert (k ≠ ref) as Hne by (intros ->; done).
        destruct (IHin Hin) as (f0 & f' & Hg0 & Hr & Hg' & Hs).
        rewrite get_set_ne in Hg0 by done.
        exists f0, f'. repeat split; [done..|].
        rewrite Hs. unfold statusAfter.
        repeat case_bool_decide;
          by rewrite ?lookup_insert_eq, ?lookup_insert_ne.
    + intros [Hne Hnot]%not_elem_of_cons.
      destruct (IHout Hnot) as [Hg Hs].
      rewrite Hg, Hs, get_set_ne by done. split; [done|].
      unfold statusAfter. case_bool_decide; by rewrite ?lookup_insert_ne.
Qed.

Lemma forEach_reresolve_total vars ks fns st :
  NoDup ks →
  (∀ ref, ref ∈ ks →
     ∃ f f', JSRecord.get fns ref = Some f
             ∧ reresolveFunctionNode f vars = Ok f') →
  ∃ r, forEach ks (reresolveStep vars) (fns, st) = Normal r.
Proof.
  revert fns st. induction ks as [|k ks IH]; simpl; intros fns st Hnd Hall.
  - eauto.
  - apply NoDup_cons in Hnd as [Hk Hnd].
    destruct (Hall k (list_elem_of_here _ _)) as (f & f' & Hget & Hres).
    unfold reresolveStep at 1. rewrite Hget, Hres.
    assert (∀ st1, ∃ r, forEach ks (reresolveStep vars)
                          (JSRecord.set fns k f', st1) = Normal r) as Hgo.
    { intros st1. apply IH; [done|]. intros ref Hin.
      destruct (Hall ref (list_elem_of_further _ _ _ Hin)) as (g & g' & Hg & Hr).
      exists g, g'. split; [|done].
      rewrite get_set_ne; [done|]. intros ->. done. }
    case_bool_decide; apply Hgo.
Qed.

(** The entries of the status map come from keys of the loop. *)
Lemma forEach_reresolve_status vars ks fns st fns' st' ref :
  forEach ks (reresolveStep vars) (fns, st) = Normal (fns', st') →
  ref ∉ ks → st' !! ref = st !! ref.
Proof.
  revert fns st. induction ks as [|k ks IH]; simpl; intros fns st Hrun Hnot.
  - by injection Hrun as <- <-.
  - apply not_elem_of_cons in Hnot as [Hne Hnot].
    destruct (reresolveStep_cases vars fns st k)
      as [[e He]|(f & f1 & Hget & Hres & Hstep)]; rewrite ?He, ?Hstep in Hrun;
      [discriminate|].
    rewrite (IH _ _ Hrun Hnot). unfold statusAfter.
    case_bool_decide; by rewrite ?lookup_insert_ne.
Qed.

End ReresolveLoop.

(** ** Class lists *)
Section ClassListFacts.
Implicit Types (doc : Document) (e b : Element) (token : string).

Lemma without_absent token l : token ∉ l → without token l = l.
Proof.
  unfold without. induction l as [|t l IH]; [done|].
  intros [Hne Hl]%not_elem_of_cons.
  rewrite filter_cons_True by congruence. f_equal. by apply IH.
Qed.

Lemma elem_of_without token t l : t ∈ without token l ↔ t ≠ token ∧ t ∈ l.
Proof. unfold without. by rewrite list_elem_of_filter. Qed.

Lemma elem_of_including token t l :
  t ∈ including token l ↔ t = token ∨ t ∈ l.
Proof.
  unfold including. case_bool_decide as Hin.
  - split; [by right | by intros [->|?]].
  - rewrite elem_of_app, list_elem_of_singleton. tauto.
Qed.

Lemma classList_setClassList doc e l b :
  classList (setClassList doc e l) b
  = if decide (nodeId e = nodeId b) then l else classList doc b.
Proof.
  unfold classList, setClassList; simpl.
  destruct (decide (nodeId e = nodeId b)) as [->|Hne].
  - by rewrite lookup_insert_eq.
  - by rewrite lookup_insert_ne.
Qed.

Lemma classList_remove_self doc e token :
  classList (classList_remove doc e token) e = without token (classList doc e).
Proof.
  unfold classList_remove, classList_contains. case_bool_decide as Hin.
  - rewrite classList_setClassList. by rewrite decide_True.
  - by rewrite without_absent.
Qed.

Lemma classList_add_self doc e token :
  classList (classList_add doc e token) e = including token (classList doc e).
Proof.
  unfold classList_add, classList_contains, including.
  case_bool_decide as Hin; [done|].
  rewrite classList_setClassList. by rewrite decide_True.
Qed.

Lemma classLists_remove_other doc e token n :
  nodeId e ≠ n →
  classLists (classList_remove doc e token) !! n = classLists doc !! n.
Proof.
  intros Hne. unfold classList_remove. destruct (classList_contains _ _ _);
    [|done].
  simpl. by rewrite lookup_insert_ne.
Qed.

Lemma classLists_add_other doc e token n :
  nodeId e ≠ n →
  classLists (classList_add doc e token) !! n = classLists doc !! n.
Proof.
  intros Hne. unfold classList_add. destruct (classList_contains _ _ _);
    [done|].
  simpl. by rewrite lookup_insert_ne.
Qed.

Lemma classList_remove_token doc e token b t :
  t ≠ token →
  t ∈ classList (classList_remove doc e token) b ↔ t ∈ classList doc b.
Proof.
  intros Hne. destruct (decide (nodeId e = nodeId b)) as [Heq|Hn].
  - unfold classList at 1. rewrite <- Heq. fold (classList (classList_remove doc e token) e).
    rewrite classList_remove_self, elem_of_without.
    unfold classList. rewrite Heq. tauto.
  - unfold classList. by rewrite classLists_remove_other.
Qed.

Lemma classList_add_token doc e token b t :
  t ≠ token →
  t ∈ classList (classList_add doc e token) b ↔ t ∈ classList doc b.
Proof.
  intros Hne. destruct (decide (nodeId e = nodeId b)) as [Heq|Hn].
  - unfold classList at 1. rewrite <- Heq. fold (classList (classList_add doc e token) e).
    rewrite classList_add_self, elem_of_including.
    unfold classList. rewrite Heq. tauto.
  - unfold classList. by rewrite classLists_add_other.
Qed.

End ClassListFacts.

(** ** The loop over the toggleable elements *)
Section ToggleLoop.
Implicit Types (doc : Document) (t b : Element) (st : gmap string bool).

Lemma toggleStep_cases st doc t :
  (dataIf t = None ∧ toggleStep st doc t = Throw noRefFound doc)
  ∨ (∃ ref, dataIf t = Some ref
            ∧ toggleStep st doc t = Normal (applyToggle st doc t)).
Proof.
  unfold toggleStep, applyToggle, dataIf.
  destruct (truthy (getAttribute t "data-if")) as [ref|]; [|by left].
  right. exists ref. split; [done|].
  unfold displayStatus. by destruct (PlainObject.read st ref) as [|[]|].
Qed.

#[local] Arguments toggleStep : simpl never.

Lemma applyToggle_frame st doc t :
  allElements (applyToggle st doc t) = allElements doc
  ∧ innerHTML (applyToggle st doc t) = innerHTML doc.
Proof.
  unfold applyToggle, classList_remove, classList_add.
  destruct (dataIf t) as [ref|]; [|done].
  destruct (displayStatus st ref) as [[]|]; [| |done];
    by destruct (classList_contains _ _ _).
Qed.

Lemma applyToggle_other st doc t n :
  nodeId t ≠ n → classLists (applyToggle st doc t) !! n = classLists doc !! n.
Proof.
  intros Hne. unfold applyToggle.
  destruct (dataIf t) as [ref|]; [|done].
  destruct (displayStatus st ref) as [[]|]; [| |done].
  - by apply classLists_remove_other.
  - by apply classLists_add_other.
Qed.

Lemma applyToggle_self st doc t ref :
  dataIf t = Some ref →
  classList (applyToggle st doc t) t
  = toggled (displayStatus st ref) (classList doc t).
Proof.
  intros Href. unfold applyToggle, toggled. rewrite Href.
  destruct (displayStatus st ref) as [[]|]; [| |done].
  - apply classList_remove_self.
  - apply classList_add_self.
Qed.

Lemma applyToggle_skip st doc t ref :
  dataIf t = Some ref → displayStatus st ref = None →
  applyToggle st doc t = doc.
Proof. intros Href Hst. unfold applyToggle. by rewrite Href, Hst. Qed.

Lemma applyToggle_token st doc t b token :
  token ≠ hiddenClass →
  token ∈ classList (applyToggle st doc t) b ↔ token ∈ classList doc b.
Proof.
  intros Hne. unfold applyToggle.
  destruct (dataIf t) as [ref|]; [|done].
  destruct (displayStatus st ref) as [[]|]; [| |done].
  - by apply classList_remove_token.
  - by apply classList_add_token.
Qed.

Lemma toggleStep_final st doc t :
  finalState (toggleStep st doc t) = applyToggle st doc t.
Proof.
  destruct (toggleStep_cases st doc t) as [[Hnone ->]|(ref & Href & ->)];
    simpl; [|done].
  unfold applyToggle. by rewrite Hnone.
Qed.

Lemma toggle_loop_frame st ts doc :
  let doc' := finalState (forEach ts (toggleStep st) doc) in
  allElements doc' = allElements doc
  ∧ innerHTML doc' = innerHTML doc
  ∧ ∀ b token, token ≠ hiddenClass →
      (token ∈ classList doc' b ↔ token ∈ classList doc b).
Proof.
  apply (forEach_invariant
           (λ d, allElements d = allElements doc
                 ∧ innerHTML d = innerHTML doc
                 ∧ ∀ b token, token ≠ hiddenClass →
                     (token ∈ classList d b ↔ token ∈ classList doc b)));
    [done|].
  intros d t _ (He & Hi & Hc). rewrite toggleStep_final.
  destruct (applyToggle_frame st d t) as [-> ->].
  split; [done|]. split; [done|].
  intros b token Hne. by rewrite applyToggle_token, Hc.
Qed.

Lemma toggle_loop_other st ts doc n :
  (∀ t ref, t ∈ ts → dataIf t = Some ref → is_Some (displayStatus st ref) →
            nodeId t ≠ n) →
  classLists (finalState (forEach ts (toggleStep st) doc)) !! n
  = classLists doc !! n.
Proof.
  intros Hother.
  apply (forEach_invariant (λ d, classLists d !! n = classLists doc !! n));
    [done|].
  intros d t Hin Hd. rewrite toggleStep_final, <- Hd.
  destruct (dataIf t) as [ref|] eqn:Href;
    [|unfold applyToggle; by rewrite Href].
  destruct (displayStatus st ref) as [v|] eqn:Hst;
    [|by rewrite (applyToggle_skip _ _ _ ref)].
  apply applyToggle_other. eapply Hother; eauto.
Qed.

Lemma toggle_loop_self st ts doc doc' t :
  NoDup (nodeId <$> ts) →
  forEach ts (toggleStep st) doc = Normal doc' →
  t ∈ ts →
  ∃ ref, dataIf t = Some ref
         ∧ classList doc' t
           = toggled (displayStatus st ref) (classList doc t).
Proof.
  revert doc. induction ts as [|t0 ts IH]; simpl; intros doc Hnd Hrun Hin.
  - by apply elem_of_nil in Hin.
  - apply NoDup_cons in Hnd as [Ht0 Hnd].
    destruct (toggleStep_cases st doc t0) as [[_ Hs]|(ref0 & Href0 & Hs)];
      rewrite Hs in Hrun; [discriminate|].
    apply elem_of_cons in Hin as [->|Hin].
    + exists ref0. split; [done|].
      rewrite <- (applyToggle_self st doc t0 ref0 Href0).
      unfold classList. f_equal.
      replace doc' with (finalState (forEach ts (toggleStep st)
                                       (applyToggle st doc t0)))
        by (by rewrite Hrun).
      apply toggle_loop_other. intros t ref Hin _ _ Heq.
      apply Ht0. rewrite <- Heq. by apply list_elem_of_fmap_2.
    + destruct (IH _ Hnd Hrun Hin) as (ref & Href & Hcl).
      exists ref. split; [done|]. rewrite Hcl. f_equal.
      unfold classList. f_equal. apply applyToggle_other.
      intros Heq. apply Ht0. rewrite Heq. by apply list_elem_of_fmap_2.
Qed.

Lemma toggle_loop_total st ts doc :
  (∀ t, t ∈ ts → is_Some (dataIf t)) →
  forEach ts (toggleStep st) doc = Normal (foldl (applyToggle st) doc ts).
Proof.
  intros Hall. apply forEach_all_normal. intros d t Hin.
  destruct (toggleStep_cases st d t) as [[Hnone _]|(ref & _ & ->)]; [|done].
  destruct (Hall t Hin) as [ref Href]. congruence.
Qed.

Lemma toggle_loop_fatal st ts doc :
  (∃ t, t ∈ ts ∧ dataIf t = None) →
  ∃ doc', forEach ts (toggleStep st) doc = Throw noRefFound doc'.
Proof.
  revert doc. induction ts as [|t0 ts IH]; simpl; intros doc (t & Hin & Hnone).
  - by apply elem_of_nil in Hin.
  - destruct (toggleStep_cases st doc t0) as [[_ ->]|(ref0 & Href0 & ->)];
      [eauto|].
    apply IH. exists t. split; [|done].
    apply elem_of_cons in Hin as [->|Hin]; [congruence | done].
Qed.

Lemma toggle_loop_refs st ts doc doc' t :
  forEach ts (toggleStep st) doc = Normal doc' → t ∈ ts → is_Some (dataIf t).
Proof.
  intros Hrun Hin. destruct (dataIf t) as [ref|] eqn:Href; [eauto|].
  destruct (toggle_loop_fatal st ts doc) as [d Hd]; [eauto|]. congruence.
Qed.

Lemma toggle_loop_idle ts doc :
  (∀ t, t ∈ ts → is_Some (dataIf t)) →
  (∀ t ref, t ∈ ts → dataIf t = Some ref →
            ref ∉ PlainObject.prototypeKeys) →
  forEach ts (toggleStep ∅) doc = Normal doc.
Proof.
  intros Hall Hplain. rewrite toggle_loop_total by done. f_equal.
  clear Hall. induction ts as [|t ts IH]; simpl; [done|].
  assert (applyToggle ∅ doc t = doc) as Ht.
  { unfold applyToggle. destruct (dataIf t) as [ref|] eqn:Href; [|done].
    rewrite displayStatus_plain
      by (eapply Hplain; [apply list_elem_of_here | done]).
    by rewrite lookup_empty. }
  rewrite Ht. apply IH. intros t' ref Hin. apply Hplain.
  by apply list_elem_of_further.
Qed.

End ToggleLoop.

(** ** Identity of elements *)
Section Identity.
Context {A B : Type} (f : A → B).

Lemma NoDup_fmap_filter (P : A → Prop) `{∀ x, Decision (P x)} (l : list A) :
  NoDup (f <$> l) → NoDup (f <$> filter P l).
Proof.
  induction l as [|x l IH]; simpl; [done|].
  intros [Hx Hnd]%NoDup_cons. rewrite filter_cons.
  destruct (decide (P x)); [|by apply IH].
  simpl. apply NoDup_cons. split; [|by apply IH].
  intros (y & Hy & [_ Hin]%list_elem_of_filter)%list_elem_of_fmap.
  apply Hx. rewrite Hy. by apply list_elem_of_fmap_2.
Qed.

Lemma NoDup_fmap_eq (l : list A) x y :
  NoDup (f <$> l) → x ∈ l → y ∈ l → f x = f y → x = y.
Proof.
  induction l as [|z l IH]; simpl; [by intros _ ?%elem_of_nil|].
  intros [Hz Hnd]%NoDup_cons [->|Hx]%elem_of_cons [->|Hy]%elem_of_cons Heq;
    [done| | |by apply IH].
  - exfalso. apply Hz. rewrite Heq. by apply list_elem_of_fmap_2.
  - exfalso. apply Hz. rewrite <- Heq. by apply list_elem_of_fmap_2.
Qed.

End Identity.

Lemma truthy_Some o r : truthy o = Some r → o = Some r.
Proof. destruct o as [[|]|]; simpl; congruence. Qed.

(** ** rerenderPageContent *)
Section PageContent.
Context `{Collaborators}.
Implicit Types (w : World) (ref : string).

Lemma rerenderPageContent_Normal w w' :
  rerenderPageContent w = Normal w' →
  ∃ fns' st doc',
    forEach (JSRecord.keys (ifFunctionsByRef (this w)))
            (reresolveStep (selectedValsByPrefId (this w)))
            (ifFunctionsByRef (this w), ∅) = Normal (fns', st)
    ∧ forEach (toggleables w) (toggleStep st) (document w) = Normal doc'
    ∧ w' = withDocument (withIfFunctions w fns') doc'.
Proof.
  unfold rerenderPageContent, toggleables.
  destruct (forEach _ (reresolveStep _) _) as [[fns' st]|e [fns' st]];
    [|discriminate].
  simpl. destruct (forEach _ (toggleStep st) _) as [doc'|e doc'] eqn:Hdoc;
    [|discriminate].
  intros [= <-]. eauto 6.
Qed.

(** Which references get a new display status. *)
Lemma newDisplayStatus_spec w fns' st ref :
  NoDup (JSRecord.keys (ifFunctionsByRef (this w))) →
  forEach (JSRecord.keys (ifFunctionsByRef (this w)))
          (reresolveStep (selectedValsByPrefId (this w)))
          (ifFunctionsByRef (this w), ∅) = Normal (fns', st) →
  match JSRecord.get (ifFunctionsByRef (this w)) ref with
  | None => JSRecord.get fns' ref = None ∧ st !! ref = None
  | Some f =>
      ∃ f', reresolveFunctionNode f (selectedValsByPrefId (this w)) = Ok f'
            ∧ JSRecord.get fns' ref = Some f'
            ∧ st !! ref
              = if bool_decide (value f ≠ value f') then Some (value f')
                else None
  end.
Proof.
  intros Hnd Hrun.
  destruct (forEach_reresolve_spec _ _ _ _ _ _ ref Hnd Hrun) as [Hin Hout].
  destruct (JSRecord.get (ifFunctionsByRef (this w)) ref) as [f|] eqn:Hget.
  - destruct Hin as (f0 & f' & Hg & Hres & Hg' & Hst).
    { apply get_is_Some. eauto. }
    injection Hg as <-. exists f'.
    split; [done|]. split; [done|]. rewrite Hst. unfold statusAfter.
    case_bool_decide; [by rewrite lookup_insert_eq | by rewrite lookup_empty].
  - apply get_None in Hget. destruct (Hout Hget) as [Hg Hst].
    by rewrite Hg, Hst, lookup_empty.
Qed.

End PageContent.

Section PageContentTheorems.
Context `{Collaborators}.
Implicit Types (w : World) (ref : string).

Lemma toggleables_elem_of w b : b ∈ toggleables w → b ∈ allElements (document w).
Proof.
  unfold toggleables, getElementsByClassName.
  by intros [_ ?]%list_elem_of_filter.
Qed.

Lemma toggleables_NoDup w :
  NoDup (nodeId <$> allElements (document w)) → NoDup (nodeId <$> toggleables w).
Proof. apply NoDup_fmap_filter. Qed.

Lemma hidden_toggled (v : bool) (l : list string) :
  bool_decide (hiddenClass ∈ toggled (Some v) l) = negb v.
Proof.
  destruct v; simpl.
  - apply bool_decide_eq_false. rewrite elem_of_without. tauto.
  - apply bool_decide_eq_true. rewrite elem_of_including. tauto.
Qed.

Lemma token_toggled (o : option bool) (l : list string) token :
  token ≠ hiddenClass → token ∈ toggled o l ↔ token ∈ l.
Proof.
  intros Hne. destruct o as [[]|]; simpl; [| |done].
  - rewrite elem_of_without. tauto.
  - rewrite elem_of_including. tauto.
Qed.

(** The blocks a pass leaves alone: every block whose reference got no new
    display status. *)
Lemma toggle_loop_unchanged w st doc' block :
  NoDup (nodeId <$> allElements (document w)) →
  forEach (toggleables w) (toggleStep st) (document w) = Normal doc' →
  block ∈ allElements (document w) →
  (∀ t r, t ∈ toggleables w → dataIf t = Some r →
          is_Some (displayStatus st r) → t ≠ block) →
  classLists doc' !! nodeId block = classLists (document w) !! nodeId block.
Proof.
  intros Hnodes Hrun Hblock Hother.
  replace doc' with (finalState (forEach (toggleables w) (toggleStep st)
                                   (document w))) by (by rewrite Hrun).
  apply toggle_loop_other. intros t r Ht Hr Hst Heq.
  apply (Hother t r Ht Hr Hst).
  eapply (NoDup_fmap_eq nodeId); eauto using toggleables_elem_of.
Qed.

Lemma newDisplayStatus_changed w fns' st doc' ref :
  NoDup (JSRecord.keys (ifFunctionsByRef (this w))) →
  forEach (JSRecord.keys (ifFunctionsByRef (this w)))
          (reresolveStep (selectedValsByPrefId (this w)))
          (ifFunctionsByRef (this w), ∅) = Normal (fns', st) →
  is_Some (st !! ref) →
  valueChanged w (withDocument (withIfFunctions w fns') doc') ref.
Proof.
  intros Hkeys Hfns Hsome.
  pose proof (newDisplayStatus_spec w fns' st ref Hkeys Hfns) as Hst.
  destruct (JSRecord.get (ifFunctionsByRef (this w)) ref) as [f|] eqn:Hf.
  - destruct Hst as (f' & _ & Hf' & Hst). exists f, f'.
    split; [done|]. split; [done|].
    case_bool_decide; [congruence|].
    rewrite Hst in Hsome. by destruct Hsome.
  - destruct Hst as [_ Hst]. rewrite Hst in Hsome. by destruct Hsome.
Qed.

(** C2 (amended): a pass of [rerenderPageContent] that returns sets the
    hidden class of every block whose function changed value to the
    opposite of the new value and keeps its other classes; every element
    that is not the block of a function that changed value keeps its class
    list, when its reference is not the name of a property of
    [Object.prototype].  When one function changed value and no other block
    carries such a name, the block of its reference (one block, whose hidden
    class agreed with the old value) is the only element whose hidden flag
    changes; when the page has no block for that reference, no flag
    changes. *)
Theorem rerenderPageContent_minimal_diff w w' :
  NoDup (JSRecord.keys (ifFunctionsByRef (this w))) →
  NoDup (nodeId <$> allElements (document w)) →
  rerenderPageContent w = Normal w' →
  (∀ block ref f f',
     block ∈ toggleables w →
     getAttribute block "data-if" = Some ref →
     JSRecord.get (ifFunctionsByRef (this w)) ref = Some f →
     JSRecord.get (ifFunctionsByRef (this w')) ref = Some f' →
     value f' ≠ value f →
     hiddenFlag (document w') block = negb (value f')
     ∧ ∀ token, token ≠ "markdoc__hidden" →
         (token ∈ classList (document w') block
          ↔ token ∈ classList (document w) block))
  ∧ (∀ b,
       b ∈ allElements (document w) →
       (∀ ref, b ∈ toggleables w → getAttribute b "data-if" = Some ref →
               ¬ valueChanged w w' ref
               ∧ ref ∉ PlainObject.prototypeKeys) →
       classLists (document w') !! nodeId b
       = classLists (document w) !! nodeId b)
  ∧ (∀ ref,
       valueChanged w w' ref →
       (∀ r, valueChanged w w' r → r = ref) →
       (∀ b r, b ∈ toggleables w → getAttribute b "data-if" = Some r →
               r ≠ ref → r ∉ PlainObject.prototypeKeys) →
       (∀ block f,
          block ∈ toggleables w →
          getAttribute block "data-if" = Some ref →
          (∀ b, b ∈ toggleables w → getAttribute b "data-if" = Some ref →
                b = block) →
          JSRecord.get (ifFunctionsByRef (this w)) ref = Some f →
          hiddenFlag (document w) block = negb (value f) →
          ∀ b, b ∈ allElements (document w) →
            hiddenFlag (document w') b ≠ hiddenFlag (document w) b
            ↔ b = block)
       ∧ ((∀ b, b ∈ toggleables w → getAttribute b "data-if" ≠ Some ref) →
          ∀ b, b ∈ allElements (document w) →
            hiddenFlag (document w') b = hiddenFlag (document w) b)).
Proof.
  intros Hkeys Hnodes Hpass.
  destruct (rerenderPageContent_Normal w w' Hpass)
    as (fns' & st & doc' & Hfns & Hdoc & ->).
  set (w' := withDocument (withIfFunctions w fns') doc').
  assert (∀ b, b ∈ allElements (document w) →
            (∀ ref, b ∈ toggleables w → getAttribute b "data-if" = Some ref →
                    ¬ valueChanged w w' ref
                    ∧ ref ∉ PlainObject.prototypeKeys) →
            classLists doc' !! nodeId b = classLists (document w) !! nodeId b)
    as Hkeep.
  { intros b Hb Hsame.
    apply (toggle_loop_unchanged w st doc' b Hnodes Hdoc Hb).
    intros t r Ht Hr Hsome ->.
    destruct (Hsame r Ht) as [Hsame' Hplain]; [by apply truthy_Some in Hr|].
    rewrite displayStatus_plain in Hsome by done.
    apply Hsame'. by apply (newDisplayStatus_changed w fns' st doc'). }
  assert (∀ block ref f f',
            block ∈ toggleables w →
            getAttribute block "data-if" = Some ref →
            JSRecord.get (ifFunctionsByRef (this w)) ref = Some f →
            JSRecord.get fns' ref = Some f' →
            value f' ≠ value f →
            classList doc' block
            = toggled (Some (value f')) (classList (document w) block))
    as Hblock.
  { intros block ref f f' Hin Hattr Hf Hf' Hne.
    pose proof (newDisplayStatus_spec w fns' st ref Hkeys Hfns) as Hst.
    rewrite Hf in Hst. destruct Hst as (f0 & _ & Hf0 & Hst).
    rewrite Hf' in Hf0. injection Hf0 as <-.
    rewrite bool_decide_eq_true_2 in Hst by congruence.
    destruct (toggle_loop_self st _ _ _ block (toggleables_NoDup w Hnodes)
                Hdoc Hin) as (r & Hr & Hcl).
    apply truthy_Some in Hr. rewrite Hattr in Hr. injection Hr as <-.
    by rewrite Hcl, (displayStatus_own _ _ _ Hst). }
  split; [|split; [exact Hkeep|]].
  - intros block ref f f' Hin Hattr Hf Hf' Hne. simpl in Hf'.
    unfold hiddenFlag, classList_contains. simpl.
    rewrite (Hblock block ref f f') by done.
    split; [apply hidden_toggled|].
    intros token Htoken. by apply token_toggled.
  - intros ref Hchanged Honly Hplain. split.
    + intros block f Hin Hattr Hone Hf Hsync b Hb.
      destruct Hchanged as (f0 & f' & Hf0 & Hf' & Hne). simpl in Hf'.
      rewrite Hf in Hf0. injection Hf0 as <-.
      split.
      * intros Hflag.
        destruct (decide (nodeId b = nodeId block)) as [Heq|Hnb].
        { eapply (NoDup_fmap_eq nodeId); eauto using toggleables_elem_of. }
        exfalso. apply Hflag. unfold hiddenFlag, classList_contains, classList.
        simpl. rewrite Hkeep; [done..|].
        intros r Ht Hr. destruct (decide (r = ref)) as [->|Hr'].
        { exfalso. apply Hnb. f_equal. by apply Hone. }
        split; [|by apply (Hplain b)].
        intros Hch. by apply Hr', Honly.
      * intros ->. rewrite Hsync. unfold hiddenFlag, classList_contains.
        simpl. rewrite (Hblock block ref f f') by done.
        rewrite hidden_toggled. by destruct (value f), (value f').
    + intros Hnone b Hb. unfold hiddenFlag, classList_contains, classList.
      simpl. rewrite Hkeep; [done..|].
      intros r Ht Hr.
      assert (r ≠ ref) as Hne by (intros ->; by apply (Hnone b Ht)).
      split; [|by apply (Hplain b)].
      intros Hch. by apply Hne, Honly.
Qed.

End PageContentTheorems.

Section PageContentErrors.
Context `{Collaborators}.
Implicit Types (w : World) (ref : string).

(** C3 (amended): when every function re-evaluates, a toggleable element
    without a [data-if] attribute (or with an empty one) makes
    [rerenderPageContent] throw; when every toggleable element carries the
    attribute the pass returns, and a block whose reference has no entry in
    [ifFunctionsByRef] and is not the name of a property of
    [Object.prototype] keeps its class list. *)
Theorem rerenderPageContent_missing_ref_fatal_orphan_skipped w :
  NoDup (JSRecord.keys (ifFunctionsByRef (this w))) →
  NoDup (nodeId <$> allElements (document w)) →
  (∀ ref f, JSRecord.get (ifFunctionsByRef (this w)) ref = Some f →
     ∃ f', reresolveFunctionNode f (selectedValsByPrefId (this w)) = Ok f') →
  ((∃ block, block ∈ toggleables w
             ∧ truthy (getAttribute block "data-if") = None) →
     ∃ w', rerenderPageContent w
           = Throw (Error "No ref found on toggleable element") w')
  ∧ ((∀ block, block ∈ toggleables w →
        is_Some (truthy (getAttribute block "data-if"))) →
     ∃ w', rerenderPageContent w = Normal w'
           ∧ ∀ block ref,
               block ∈ toggleables w →
               getAttribute block "data-if" = Some ref →
               JSRecord.get (ifFunctionsByRef (this w)) ref = None →
               ref ∉ PlainObject.prototypeKeys →
               classLists (document w') !! nodeId block
               = classLists (document w) !! nodeId block).
Proof.
  intros Hkeys Hnodes Hevals.
  destruct (forEach_reresolve_total (selectedValsByPrefId (this w))
              (JSRecord.keys (ifFunctionsByRef (this w)))
              (ifFunctionsByRef (this w)) ∅ Hkeys) as [[fns' st] Hfns].
  { intros ref [f Hf]%get_is_Some. destruct (Hevals ref f Hf) as [f' Hf'].
    eauto. }
  split.
  - intros Hblock.
    destruct (toggle_loop_fatal st (toggleables w) (document w) Hblock)
      as [doc' Hdoc].
    exists (withDocument (withIfFunctions w fns') doc').
    unfold rerenderPageContent. rewrite Hfns. simpl.
    fold (toggleables w). by rewrite Hdoc.
  - intros Hrefs.
    pose proof (toggle_loop_total st (toggleables w) (document w) Hrefs)
      as Hdoc.
    eexists. split.
    + unfold rerenderPageContent. rewrite Hfns. simpl.
      fold (toggleables w). by rewrite Hdoc.
    + simpl. intros block ref Hin Hattr Hnone Hplain.
      apply (toggle_loop_unchanged w st); eauto using toggleables_elem_of.
      intros t r Ht Hr Hsome ->.
      pose proof Hr as Hr'. apply truthy_Some in Hr'.
      rewrite Hattr in Hr'. injection Hr' as <-.
      rewrite displayStatus_plain in Hsome by done.
      pose proof (newDisplayStatus_spec w fns' st ref Hkeys Hfns) as Hst.
      rewrite Hnone in Hst. destruct Hst as [_ Hst].
      rewrite Hst in Hsome. by destruct Hsome.
Qed.

(** A pass over functions that are already settled changes nothing. *)
Lemma forEach_reresolve_idle vars ks (fns : JSRecord.t ClientFunction) st :
  (∀ k, k ∈ ks → ∃ g, JSRecord.get fns k = Some g
                      ∧ reresolveFunctionNode g vars = Ok g) →
  forEach ks (reresolveStep vars) (fns, st) = Normal (fns, st).
Proof.
  induction ks as [|k ks IH]; simpl; intros Hall; [done|].
  destruct (Hall k (list_elem_of_here _ _)) as (g & Hg & Hres).
  unfold reresolveStep at 1. rewrite Hg, Hres.
  rewrite bool_decide_eq_false_2 by tauto.
  rewrite set_get_id by done. apply IH.
  intros k' Hk'. apply Hall. by apply list_elem_of_further.
Qed.

Lemma toggleables_after_toggle w st :
  let doc' := finalState (forEach (toggleables w) (toggleStep st) (document w))
  in
  getElementsByClassName doc' "markdoc__toggleable" = toggleables w.
Proof.
  destruct (toggle_loop_frame st (toggleables w) (document w))
    as (Hel & _ & Htok).
  simpl. unfold toggleables at 2, getElementsByClassName. rewrite Hel.
  apply list_filter_iff. intros b. by apply Htok.
Qed.

(** With an evaluator whose results are fixed points, the functions a pass
    leaves all keep their value in a second pass over the same selections:
    no display status is recorded. *)
Lemma rerenderPageContent_second_loop w w' :
  (∀ f vars f', reresolveFunctionNode f vars = Ok f' →
                reresolveFunctionNode f' vars = Ok f') →
  NoDup (JSRecord.keys (ifFunctionsByRef (this w))) →
  rerenderPageContent w = Normal w' →
  forEach (JSRecord.keys (ifFunctionsByRef (this w')))
          (reresolveStep (selectedValsByPrefId (this w')))
          (ifFunctionsByRef (this w'), ∅)
  = Normal (ifFunctionsByRef (this w'), ∅).
Proof.
  intros Hfix Hkeys Hpass.
  destruct (rerenderPageContent_Normal w w' Hpass)
    as (fns' & st & doc' & Hfns & Hdoc & ->); simpl.
  apply forEach_reresolve_idle. intros k Hk.
  pose proof (forEach_reresolve_keys (selectedValsByPrefId (this w))
                (JSRecord.keys (ifFunctionsByRef (this w)))
                (ifFunctionsByRef (this w)) ∅) as Hk'.
  rewrite Hfns in Hk'. simpl in Hk'. rewrite Hk' in Hk.
  destruct (forEach_reresolve_spec _ _ _ _ _ _ k Hkeys Hfns) as [Hin _].
  destruct (Hin Hk) as (f & f' & _ & Hres & Hget & _). eauto.
Qed.

(** When, moreover, no block is named like a property of
    [Object.prototype], the second pass finds nothing to do. *)
Lemma rerenderPageContent_settled w w' :
  (∀ f vars f', reresolveFunctionNode f vars = Ok f' →
                reresolveFunctionNode f' vars = Ok f') →
  NoDup (JSRecord.keys (ifFunctionsByRef (this w))) →
  (∀ t ref, t ∈ toggleables w → dataIf t = Some ref →
            ref ∉ PlainObject.prototypeKeys) →
  rerenderPageContent w = Normal w' →
  rerenderPageContent w' = Normal w'.
Proof.
  intros Hfix Hkeys Hplain Hpass.
  pose proof (rerenderPageContent_second_loop w w' Hfix Hkeys Hpass) as Hidle.
  destruct (rerenderPageContent_Normal w w' Hpass)
    as (fns' & st & doc' & Hfns & Hdoc & ->); simpl in *.
  unfold rerenderPageContent. simpl. rewrite Hidle. simpl.
  pose proof (toggleables_after_toggle w st) as Htog.
  rewrite Hdoc in Htog. simpl in Htog. rewrite Htog.
  rewrite toggle_loop_idle; [done| |done].
  intros t Ht. by eapply toggle_loop_refs.
Qed.

(** C8 (defect): with an evaluator whose results are fixed points, a second
    pass under the same selections re-evaluates every function to the value
    it has, so it records no display status and leaves the functions as
    they are.  Yet a block whose reference is the name of a property of
    [Object.prototype], hidden by the first pass because its function went
    from true to false, is shown again by the second pass: the loop over the
    toggleable elements finds the inherited property under that name. *)
Theorem rerenderPageContent_second_pass_shows_block w w1 block ref f f1 :
  (∀ f vars f', reresolveFunctionNode f vars = Ok f' →
                reresolveFunctionNode f' vars = Ok f') →
  NoDup (JSRecord.keys (ifFunctionsByRef (this w))) →
  NoDup (nodeId <$> allElements (document w)) →
  rerenderPageContent w = Normal w1 →
  block ∈ toggleables w →
  getAttribute block "data-if" = Some ref →
  ref ∈ PlainObject.prototypeKeys →
  JSRecord.get (ifFunctionsByRef (this w)) ref = Some f →
  JSRecord.get (ifFunctionsByRef (this w1)) ref = Some f1 →
  value f = true →
  value f1 = false →
  hiddenFlag (document w1) block = true
  ∧ ∃ w2, rerenderPageContent w1 = Normal w2
          ∧ selectedValsByPrefId (this w2) = selectedValsByPrefId (this w)
          ∧ ifFunctionsByRef (this w2) = ifFunctionsByRef (this w1)
          ∧ hiddenFlag (document w2) block = false.
Proof.
  intros Hfix Hkeys Hnodes Hpass Hin Hattr Hname Hf Hf1 Hold Hnew.
  pose proof (rerenderPageContent_second_loop w w1 Hfix Hkeys Hpass) as Hidle.
  destruct (rerenderPageContent_Normal w w1 Hpass)
    as (fns' & st & doc' & Hfns & Hdoc & ->); simpl in *.
  pose proof (toggleables_NoDup w Hnodes) as Hnd.
  split.
  - pose proof (newDisplayStatus_spec w fns' st ref Hkeys Hfns) as Hst.
    rewrite Hf in Hst. destruct Hst as (f0 & _ & Hf0 & Hst).
    rewrite Hf1 in Hf0. injection Hf0 as <-.
    rewrite bool_decide_eq_true_2 in Hst by congruence.
    destruct (toggle_loop_self st _ _ _ block Hnd Hdoc Hin) as (r & Hr & Hcl).
    apply truthy_Some in Hr. rewrite Hattr in Hr. injection Hr as <-.
    unfold hiddenFlag, classList_contains.
    rewrite Hcl, (displayStatus_own _ _ _ Hst), Hnew.
    apply (hidden_toggled false).
  - pose proof (toggleables_after_toggle w st) as Htog.
    rewrite Hdoc in Htog. simpl in Htog.
    assert (forEach (toggleables w) (toggleStep ∅) doc'
            = Normal (foldl (applyToggle ∅) doc' (toggleables w))) as Hrun.
    { apply toggle_loop_total. intros t Ht. by eapply toggle_loop_refs. }
    exists (withDocument (withIfFunctions w fns')
              (foldl (applyToggle ∅) doc' (toggleables w))).
    split.
    { unfold rerenderPageContent. simpl. rewrite Hidle. simpl.
      rewrite Htog. by rewrite Hrun. }
    simpl. split; [done|]. split; [done|].
    destruct (toggle_loop_self ∅ _ _ _ block Hnd Hrun Hin) as (r & Hr & Hcl).
    apply truthy_Some in Hr. rewrite Hattr in Hr. injection Hr as <-.
    unfold hiddenFlag, classList_contains.
    rewrite Hcl, displayStatus_inherited by (done || apply lookup_empty).
    apply (hidden_toggled true).
Qed.

End PageContentErrors.

(** ** rerenderChooser *)
Section Chooser.
Context `{Collaborators}.
Implicit Types (w : World) (resolved : JSRecord.t ResolvedPagePref).
Implicit Types (vals : gmap string string).

Lemma forEach_align_foldl resolved (l : JSRecord.t ResolvedPagePref) vals :
  (∀ k p, (k, p) ∈ l → JSRecord.get resolved k = Some p) →
  forEach (JSRecord.keys l) (alignStep resolved) vals
  = Normal (foldl align vals l).
Proof.
  unfold JSRecord.keys. revert vals.
  induction l as [|[k p] l IH]; simpl; intros vals Hget; [done|].
  unfold alignStep at 1. rewrite (Hget k p) by apply list_elem_of_here.
  apply IH. intros k' p' Hin. apply Hget. by apply list_elem_of_further.
Qed.

Lemma foldl_align_other (l : JSRecord.t ResolvedPagePref) vals i :
  i ∉ pref_id <$> l.*2 → foldl align vals l !! i = vals !! i.
Proof.
  revert vals. induction l as [|[k p] l IH]; simpl; intros vals Hnot; [done|].
  apply not_elem_of_cons in Hnot as [Hne Hnot].
  rewrite IH by done. unfold align; simpl. by rewrite lookup_assign_ne.
Qed.

Lemma foldl_align_lookup (l : JSRecord.t ResolvedPagePref) vals k p :
  NoDup (pref_id <$> l.*2) → (k, p) ∈ l → pref_id p ≠ "__proto__" →
  foldl align vals l !! pref_id p = Some (currentValue p).
Proof.
  revert vals.
  induction l as [|[k0 p0] l IH]; simpl; intros vals Hnd Hin Hproto.
  - by apply elem_of_nil in Hin.
  - apply NoDup_cons in Hnd as [Hp0 Hnd].
    apply elem_of_cons in Hin as [[= -> ->]|Hin]; [|by apply IH].
    rewrite foldl_align_other by done. unfold align; simpl.
    rewrite lookup_assign_eq; auto.
Qed.

Lemma keyed_by_id_keys (l : JSRecord.t ResolvedPagePref) :
  (∀ k p, (k, p) ∈ l → pref_id p = k) → pref_id <$> l.*2 = JSRecord.keys l.
Proof.
  unfold JSRecord.keys. induction l as [|[k p] l IH]; simpl; intros Hid;
    [done|].
  rewrite (Hid k p) by apply list_elem_of_here. f_equal. apply IH.
  intros k' p' Hin. by apply Hid, list_elem_of_further.
Qed.

Lemma forEach_align_total resolved vals :
  ∃ vals', forEach (JSRecord.keys resolved) (alignStep resolved) vals
           = Normal vals'.
Proof.
  assert (∀ ks vals, (∀ k, k ∈ ks → k ∈ JSRecord.keys resolved) →
            ∃ vals', forEach ks (alignStep resolved) vals = Normal vals')
    as Hgen.
  { induction ks as [|k ks IH]; simpl; intros vals0 Hks; [eauto|].
    destruct (proj2 (get_is_Some resolved k)) as [p Hp].
    { apply Hks, list_elem_of_here. }
    unfold alignStep at 1. rewrite Hp. apply IH.
    intros k' Hk'. by apply Hks, list_elem_of_further. }
  by apply Hgen.
Qed.

Lemma rerenderChooser_Normal w w' :
  rerenderChooser w = Normal w' →
  ∃ pagePrefs prefOptions chooser resolved vals html,
    pagePrefsConfig (this w) = Some pagePrefs
    ∧ prefOptionsConfig (this w) = Some prefOptions
    ∧ chooserElement (this w) = Some chooser
    ∧ resolveMinifiedPagePrefs pagePrefs prefOptions
        (selectedValsByPrefId (this w)) = Ok resolved
    ∧ forEach (JSRecord.keys resolved) (alignStep resolved)
        (selectedValsByPrefId (this w)) = Normal vals
    ∧ getChooserHtml resolved = Ok html
    ∧ w' = withDocument (withSelectedVals w vals)
             (setInnerHTML (document w) chooser html).
Proof.
  unfold rerenderChooser.
  destruct (pagePrefsConfig (this w)) as [pagePrefs|]; [|discriminate].
  destruct (prefOptionsConfig (this w)) as [prefOptions|]; [|discriminate].
  destruct (chooserElement (this w)) as [chooser|]; [|discriminate].
  destruct (resolveMinifiedPagePrefs _ _ _) as [resolved|] eqn:Hres;
    [|discriminate].
  destruct (forEach _ _ _) as [vals|] eqn:Hvals; [|discriminate].
  destruct (getChooserHtml resolved) as [html|] eqn:Hhtml; [|discriminate].
  intros [= <-]. exists pagePrefs, prefOptions, chooser, resolved, vals, html.
  done.
Qed.

(** Whatever its outcome, [rerenderChooser] leaves the functions and the
    class lists alone. *)
Lemma rerenderChooser_frame w :
  let w' := finalState (rerenderChooser w) in
  ifFunctionsByRef (this w') = ifFunctionsByRef (this w)
  ∧ classLists (document w') = classLists (document w)
  ∧ allElements (document w') = allElements (document w).
Proof.
  unfold rerenderChooser.
  destruct (pagePrefsConfig (this w)) as [pagePrefs|]; [|done].
  destruct (prefOptionsConfig (this w)) as [prefOptions|]; [|done].
  destruct (chooserElement (this w)) as [chooser|]; [|done].
  destruct (resolveMinifiedPagePrefs _ _ _) as [resolved|]; [|done].
  destruct (forEach _ _ _) as [vals|]; [|done].
  by destruct (getChooserHtml resolved).
Qed.

(** What every assignment into [selectedValsByPrefId] preserves,
    [rerenderChooser] preserves, whatever its outcome. *)
Lemma rerenderChooser_selection_invariant (P : gmap string string → Prop) w :
  P (selectedValsByPrefId (this w)) →
  (∀ vals i v, P vals → P (PlainObject.assign vals i v)) →
  P (selectedValsByPrefId (this (finalState (rerenderChooser w)))).
Proof.
  intros Hstart Hassign. unfold rerenderChooser.
  destruct (pagePrefsConfig (this w)) as [pagePrefs|]; [|done].
  destruct (prefOptionsConfig (this w)) as [prefOptions|]; [|done].
  destruct (chooserElement (this w)) as [chooser|]; [|done].
  destruct (resolveMinifiedPagePrefs _ _ _) as [resolved|]; [|done].
  assert (P (finalState (forEach (JSRecord.keys resolved)
                           (alignStep resolved)
                           (selectedValsByPrefId (this w))))) as Hfinal.
  { apply forEach_invariant; [done|]. intros vals k _ Hvals.
    unfold alignStep. destruct (JSRecord.get resolved k); simpl; auto. }
  destruct (forEach _ _ _) as [vals|ex vals]; simpl in *; [|done].
  by destruct (getChooserHtml resolved).
Qed.

End Chooser.

(** ** The whole cycle *)
Section Cycle.
Context `{Collaborators}.
Implicit Types (w : World) (e : Event).

Lemma populateRightNav_frame w :
  let w' := finalState (populateRightNav w) in
  this w' = this w
  ∧ classLists (document w') = classLists (document w)
  ∧ allElements (document w') = allElements (document w).
Proof.
  unfold populateRightNav. by destruct (getElementById _ _).
Qed.

Lemma rerenderPageContent_frame w :
  let w' := finalState (rerenderPageContent w) in
  selectedValsByPrefId (this w') = selectedValsByPrefId (this w)
  ∧ JSRecord.keys (ifFunctionsByRef (this w'))
    = JSRecord.keys (ifFunctionsByRef (this w)).
Proof.
  pose proof (forEach_reresolve_keys (selectedValsByPrefId (this w))
                (JSRecord.keys (ifFunctionsByRef (this w)))
                (ifFunctionsByRef (this w)) ∅) as Hkeys.
  unfold rerenderPageContent.
  destruct (forEach _ (reresolveStep _) _) as [[fns' st]|ex [fns' st]];
    simpl in *; [|done].
  by destruct (forEach _ (toggleStep st) _).
Qed.

Lemma handlePrefSelectionChange_clicked e w node prefId optionId :
  target e = Some (ElementTarget node) →
  truthy (getAttribute node "data-pref-id") = Some prefId →
  truthy (getAttribute node "data-option-id") = Some optionId →
  handlePrefSelectionChange e w
  = rerenderChooser (clicked w prefId optionId)
      >>> rerenderPageContent >>> populateRightNav.
Proof.
  intros Ht Hp Ho. unfold handlePrefSelectionChange. by rewrite Ht, Hp, Ho.
Qed.

Lemma handlePrefSelectionChange_ignored e w :
  (∀ node prefId optionId,
     target e = Some (ElementTarget node) →
     truthy (getAttribute node "data-pref-id") = Some prefId →
     truthy (getAttribute node "data-option-id") = Some optionId → False) →
  handlePrefSelectionChange e w = Normal w.
Proof.
  intros Hno. unfold handlePrefSelectionChange.
  destruct (target e) as [[|node]|] eqn:Ht; [done| |done].
  destruct (truthy (getAttribute node "data-pref-id")) eqn:Hp; [|done].
  destruct (truthy (getAttribute node "data-option-id")) eqn:Ho; [|done].
  exfalso. eauto.
Qed.

End Cycle.

Section CycleTheorems.
Context `{Collaborators}.
Implicit Types (w : World) (e : Event).

Lemma rerenderPageContent_functions w :
  ifFunctionsByRef (this (finalState (rerenderPageContent w)))
  = (finalState (forEach (JSRecord.keys (ifFunctionsByRef (this w)))
                   (reresolveStep (selectedValsByPrefId (this w)))
                   (ifFunctionsByRef (this w), ∅))).1.
Proof.
  unfold rerenderPageContent.
  destruct (forEach _ (reresolveStep _) _) as [[fns' st]|ex [fns' st]];
    simpl; [|done].
  by destruct (forEach _ (toggleStep st) _).
Qed.

(** C1: on a selection change, [rerenderChooser] runs to its end before any
    function is re-evaluated.  If it throws, no function and no class list
    has changed.  If it returns, the selections it leaves are the ones of
    the final state, every function of the final state is either untouched
    or the re-evaluation of the old one against these selections, and when
    the handler returns every function is that re-evaluation. *)
Theorem handlePrefSelectionChange_evaluates_corrected_selection
  e w node prefId optionId :
  target e = Some (ElementTarget node) →
  truthy (getAttribute node "data-pref-id") = Some prefId →
  truthy (getAttribute node "data-option-id") = Some optionId →
  NoDup (JSRecord.keys (ifFunctionsByRef (this w))) →
  let corrected :=
    selectedValsByPrefId
      (this (finalState (rerenderChooser (clicked w prefId optionId)))) in
  (∀ ex wc,
     rerenderChooser (clicked w prefId optionId) = Throw ex wc →
     handlePrefSelectionChange e w = Throw ex wc
     ∧ ifFunctionsByRef (this wc) = ifFunctionsByRef (this w)
     ∧ classLists (document wc) = classLists (document w))
  ∧ (∀ wc,
       rerenderChooser (clicked w prefId optionId) = Normal wc →
       let wf := finalState (handlePrefSelectionChange e w) in
       selectedValsByPrefId (this wf) = corrected
       ∧ ∀ ref f',
           JSRecord.get (ifFunctionsByRef (this wf)) ref = Some f' →
           ∃ f, JSRecord.get (ifFunctionsByRef (this w)) ref = Some f
                ∧ (f' = f ∨ reresolveFunctionNode f corrected = Ok f'))
  ∧ (∀ wf,
       handlePrefSelectionChange e w = Normal wf →
       selectedValsByPrefId (this wf) = corrected
       ∧ ∀ ref f,
           JSRecord.get (ifFunctionsByRef (this w)) ref = Some f →
           ∃ f', reresolveFunctionNode f corrected = Ok f'
                 ∧ JSRecord.get (ifFunctionsByRef (this wf)) ref = Some f').
Proof.
  intros Ht Hp Ho Hkeys corrected.
  rewrite (handlePrefSelectionChange_clicked e w node prefId optionId Ht Hp Ho).
  pose proof (rerenderChooser_frame (clicked w prefId optionId))
    as (Hcfns & Hcls & _).
  subst corrected.
  destruct (rerenderChooser (clicked w prefId optionId)) as [wc|ex wc];
    simpl in *.
  - split; [discriminate|].
    pose proof (rerenderPageContent_frame wc) as [Hsel Hk].
    pose proof (rerenderPageContent_functions wc) as Hfns.
    split.
    + intros ? [= <-].
      assert (this (finalState (rerenderPageContent wc >>> populateRightNav))
              = this (finalState (rerenderPageContent wc))) as ->.
      { destruct (rerenderPageContent wc) as [w2|ex w2]; simpl; [|done].
        apply populateRightNav_frame. }
      split; [done|]. intros ref f' Hf'.
      rewrite Hfns in Hf'. rewrite <- Hcfns.
      rewrite <- Hcfns in Hkeys.
      by apply (forEach_reresolve_partial _ _ _ ∅ ref Hkeys).
    + intros wf Hwf.
      destruct (rerenderPageContent wc) as [w2|ex w2] eqn:Hpass;
        simpl in *; [|discriminate].
      pose proof (populateRightNav_frame w2) as (Hthis & _).
      rewrite Hwf in Hthis. simpl in Hthis. rewrite Hthis.
      split; [done|]. intros ref f Hf.
      destruct (rerenderPageContent_Normal wc w2 Hpass)
        as (fns' & st & doc' & Hloop & _ & ->); simpl.
      rewrite <- Hcfns in Hkeys, Hf.
      pose proof (newDisplayStatus_spec wc fns' st ref Hkeys Hloop) as Hst.
      rewrite Hf in Hst. destruct Hst as (f' & Hres & Hget & _). eauto.
  - split; [|split; discriminate].
    intros ? ? [= <- <-]. done.
Qed.

(** C7: an event whose target is missing, is not an element, or is an
    element without the [data-pref-id] or the [data-option-id] attribute is
    ignored: the handler returns and the controller and the document are as
    they were. *)
Theorem handlePrefSelectionChange_ignores_unmatched_events e w :
  target e = None
  ∨ target e = Some OtherTarget
  ∨ (∃ node, target e = Some (ElementTarget node)
             ∧ (getAttribute node "data-pref-id" = None
                ∨ getAttribute node "data-option-id" = None)) →
  handlePrefSelectionChange e w = Normal w.
Proof.
  intros Hcase. apply handlePrefSelectionChange_ignored.
  intros node prefId optionId Ht Hp Ho.
  apply truthy_Some in Hp, Ho.
  destruct Hcase as [Hn|[Hn|(node' & Hn & [Hattr|Hattr])]]; congruence.
Qed.

(** The loop of [initialize]: one function is stored per key, except under
    [__proto__]. *)
Lemma forEach_expand (minified : JSRecord.t MinifiedClientFunction) ks
  (acc : JSRecord.t ClientFunction) :
  NoDup ks →
  (∀ k, k ∈ ks → k ∉ JSRecord.keys acc) →
  (∀ k, k ∈ ks → ∃ m f, JSRecord.get minified k = Some m
                        ∧ expandClientFunction m = Ok f) →
  ∃ fns, forEach ks (expandStep minified) acc = Normal fns
         ∧ JSRecord.keys fns
           = JSRecord.keys acc ++ filter (λ k, k ≠ "__proto__") ks
         ∧ (∀ k, k ∈ ks → k ≠ "__proto__" →
              ∃ m f, JSRecord.get minified k = Some m
                     ∧ expandClientFunction m = Ok f
                     ∧ JSRecord.get fns k = Some f)
         ∧ (∀ k, k ∉ ks → JSRecord.get fns k = JSRecord.get acc k).
Proof.
  revert acc. induction ks as [|k ks IH]; simpl; intros acc Hnd Hfresh Hall.
  - exists acc. rewrite filter_nil, app_nil_r. split; [done|]. split; [done|].
    split; [by intros ? ?%elem_of_nil | done].
  - apply NoDup_cons in Hnd as [Hk Hnd].
    destruct (Hall k (list_elem_of_here _ _)) as (m & f & Hm & Hf).
    unfold expandStep at 1. rewrite Hm, Hf.
    destruct (decide (k = "__proto__")) as [->|Hproto].
    + rewrite set_proto by apply Hfresh, list_elem_of_here.
      destruct (IH acc Hnd) as (fns & Hrun & Hkeys & Hin & Hout).
      { intros k' Hk'. by apply Hfresh, list_elem_of_further. }
      { intros k' Hk'. by apply Hall, list_elem_of_further. }
      exists fns. split; [done|]. split.
      { rewrite filter_cons_False; [done|]. intros Hne. by apply Hne. }
      split.
      * intros k' [->|Hk']%elem_of_cons Hne; [done | by apply Hin].
      * intros k' [Hne Hk']%not_elem_of_cons. by apply Hout.
    + pose proof (Hfresh k (list_elem_of_here _ _)) as Hknew.
      destruct (IH (JSRecord.set acc k f) Hnd)
        as (fns & Hrun & Hkeys & Hin & Hout).
      { intros k' Hk'. rewrite keys_set_fresh by done.
        rewrite not_elem_of_app, list_elem_of_singleton.
        split; [by apply Hfresh, list_elem_of_further | by intros ->]. }
      { intros k' Hk'. by apply Hall, list_elem_of_further. }
      exists fns. split; [done|]. split.
      { rewrite Hkeys, keys_set_fresh, filter_cons_True by done.
        by rewrite <- app_assoc. }
      split.
      * intros k' [->|Hk']%elem_of_cons Hne; [|by apply Hin].
        exists m, f. rewrite Hout, get_set_eq by auto. done.
      * intros k' [Hne Hk']%not_elem_of_cons.
        rewrite Hout by done. by apply get_set_ne.
Qed.

(** What [initialize] stores when every entry decodes. *)
Lemma initialize_functions (p : InitParams) w :
  NoDup (JSRecord.keys (p_ifFunctionsByRef p)) →
  (∀ ref m, JSRecord.get (p_ifFunctionsByRef p) ref = Some m →
            ∃ f, expandClientFunction m = Ok f) →
  let fns := ifFunctionsByRef (this (finalState (initialize p w))) in
  forEach (JSRecord.keys (p_ifFunctionsByRef p))
          (expandStep (p_ifFunctionsByRef p)) [] = Normal fns
  ∧ JSRecord.keys fns
    = filter (λ k, k ≠ "__proto__") (JSRecord.keys (p_ifFunctionsByRef p))
  ∧ (∀ ref m, ref ≠ "__proto__" →
       JSRecord.get (p_ifFunctionsByRef p) ref = Some m →
       ∃ f, expandClientFunction m = Ok f ∧ JSRecord.get fns ref = Some f).
Proof.
  intros Hnd Hdecode.
  destruct (forEach_expand (p_ifFunctionsByRef p)
              (JSRecord.keys (p_ifFunctionsByRef p)) [] Hnd)
    as (fns & Hrun & Hkeys & Hin & _).
  { intros k _. apply not_elem_of_nil. }
  { intros k [m Hm]%get_is_Some. destruct (Hdecode k m Hm) as [f Hf]. eauto. }
  assert (ifFunctionsByRef (this (finalState (initialize p w))) = fns) as Hw0.
  { unfold initialize. rewrite Hrun. simpl.
    by destruct (getElementById _ _). }
  simpl. rewrite Hw0. split; [done|]. split; [done|].
  intros ref m Hne Hm. destruct (Hin ref) as (m' & f & Hm' & Hf & Hget).
  - apply get_is_Some. eauto.
  - done.
  - rewrite Hm in Hm'. injection Hm' as <-. eauto.
Qed.

(** C9 (defect): [initialize] stores one decoded function per input key
    other than [__proto__], in the order of the input.  An input entry
    under the key [__proto__] is decoded and then lost: the assignment
    replaces the prototype of [ifFunctionsByRef] and adds no key, so the
    mapping holds one function less than the input has entries. *)
Theorem initialize_drops_proto_entry (p : InitParams) w m :
  NoDup (JSRecord.keys (p_ifFunctionsByRef p)) →
  (∀ ref m, JSRecord.get (p_ifFunctionsByRef p) ref = Some m →
            ∃ f, expandClientFunction m = Ok f) →
  JSRecord.get (p_ifFunctionsByRef p) "__proto__" = Some m →
  let w0 := finalState (initialize p w) in
  JSRecord.keys (ifFunctionsByRef (this w0))
  = filter (λ k, k ≠ "__proto__") (JSRecord.keys (p_ifFunctionsByRef p))
  ∧ JSRecord.get (ifFunctionsByRef (this w0)) "__proto__" = None
  ∧ (length (JSRecord.keys (ifFunctionsByRef (this w0)))
     < length (JSRecord.keys (p_ifFunctionsByRef p)))%nat.
Proof.
  intros Hnd Hdecode Hm.
  destruct (initialize_functions p w Hnd Hdecode) as (_ & Hkeys & _).
  simpl in *. split; [done|]. split.
  - apply get_None. rewrite Hkeys.
    intros [Hne _]%list_elem_of_filter. by apply Hne.
  - rewrite Hkeys. apply (length_filter_lt _ _ "__proto__").
    + apply get_is_Some. eauto.
    + intros Hne. by apply Hne.
Qed.

(** C10 (defect): [rerenderChooser] never gives [selectedValsByPrefId] an
    entry under [__proto__].  For a resolved preference with that id the
    assignment of its current value is ignored: when the call returns, the
    selections, which are the ones the functions are then re-evaluated
    against, hold no entry for that preference. *)
Theorem rerenderChooser_skips_proto_preference
  w w' pagePrefs prefOptions (resolved : JSRecord.t ResolvedPagePref) k p :
  pagePrefsConfig (this w) = Some pagePrefs →
  prefOptionsConfig (this w) = Some prefOptions →
  resolveMinifiedPagePrefs pagePrefs prefOptions
    (selectedValsByPrefId (this w)) = Ok resolved →
  (k, p) ∈ resolved →
  pref_id p = "__proto__" →
  selectedValsByPrefId (this w) !! "__proto__" = None →
  rerenderChooser w = Normal w' →
  selectedValsByPrefId (this w') !! pref_id p = None
  ∧ selectedValsByPrefId (this (finalState (rerenderPageContent w')))
    !! pref_id p = None.
Proof.
  intros _ _ _ _ Hid Hnone Hrun.
  pose proof (rerenderChooser_selection_invariant
                (λ vals, vals !! "__proto__" = None) w Hnone) as Hinv.
  rewrite Hrun in Hinv. simpl in Hinv. rewrite Hid.
  assert (selectedValsByPrefId (this w') !! "__proto__" = None) as Hw'.
  { apply Hinv. intros vals i v Hvals.
    destruct (decide (i = "__proto__")) as [->|Hne].
    - by rewrite assign_proto.
    - by rewrite lookup_assign_ne. }
  split; [done|].
  pose proof (rerenderPageContent_frame w') as [Hsel _]. by rewrite Hsel.
Qed.

End CycleTheorems.

(** ** Strings *)
Lemma append_cons a s t : String a s +:+ t = String a (s +:+ t).
Proof. reflexivity. Qed.

Lemma append_nil_l s : EmptyString +:+ s = s.
Proof. reflexivity. Qed.

Lemma append_nil_r s : s +:+ EmptyString = s.
Proof. induction s as [|a s IH]; [done|]. by rewrite append_cons, IH. Qed.

Lemma append_assoc s t u : (s +:+ t) +:+ u = s +:+ t +:+ u.
Proof. induction s as [|a s IH]; [done|]. by rewrite !append_cons, IH. Qed.

Lemma isPrefix_append p s : isPrefix p (p +:+ s) = true.
Proof.
  induction p as [|a p IH]; [done|].
  rewrite append_cons. simpl. by rewrite bool_decide_eq_true_2, IH.
Qed.

Lemma isInfix_append needle before after :
  isInfix needle (before +:+ needle +:+ after) = true.
Proof.
  induction before as [|a before IH].
  - rewrite append_nil_l. destruct (needle +:+ after) eqn:Hs; simpl;
      rewrite <- ?Hs, isPrefix_append; done.
  - rewrite append_cons. simpl. rewrite IH. apply orb_true_r.
Qed.

(** ** populateRightNav *)
Section RightNav.
Implicit Types (doc : Document) (header : Element) (html : string).

Lemma navStep_hidden doc acc header :
  elementIsHidden doc header = true → navStep doc acc header = acc.
Proof. intros Hh. unfold navStep. destruct acc. by rewrite Hh. Qed.

Lemma navStep_visible doc html last header :
  elementIsHidden doc header = false →
  navStep doc (html, last) header
  = (html +:+ listChange last (headerLevel header) +:+ navEntry header,
     headerLevel header).
Proof.
  intros Hv. unfold navStep, listChange. rewrite Hv.
  destruct (Number_gt _ _); [by rewrite append_assoc|].
  destruct (Number_lt _ _); [by rewrite append_assoc|].
  by rewrite append_nil_l.
Qed.

#[local] Arguments navStep : simpl never.

Lemma foldl_navStep_visible doc acc headers :
  foldl (navStep doc) acc headers
  = foldl (navStep doc) acc (filter (visible doc) headers).
Proof.
  revert acc. induction headers as [|header headers IH]; intros acc; [done|].
  rewrite filter_cons. unfold visible at 1.
  destruct (decide (elementIsHidden doc header = false)) as [Hv|Hh]; simpl.
  - apply IH.
  - rewrite navStep_hidden by (by destruct (elementIsHidden doc header)).
    apply IH.
Qed.

Lemma foldl_navStep_body doc html last headers :
  (∀ header, header ∈ headers → visible doc header) →
  (foldl (navStep doc) (html, last) headers).1
  = html +:+ navBody last headers.
Proof.
  revert html last. induction headers as [|header headers IH];
    intros html last Hall; simpl.
  - by rewrite append_nil_r.
  - rewrite navStep_visible by apply Hall, list_elem_of_here.
    rewrite IH by (intros h Hh; by apply Hall, list_elem_of_further).
    by rewrite !append_assoc.
Qed.

Lemma rightNavHtml_body doc :
  rightNavHtml doc
  = "<ul>"
    +:+ navBody (Int 2)
          (filter (visible doc) (querySelectorAll_contentHeadings doc))
    +:+ "</ul>".
Proof.
  unfold rightNavHtml. rewrite foldl_navStep_visible.
  pose proof (foldl_navStep_body doc "<ul>" (Int 2)
                (filter (visible doc) (querySelectorAll_contentHeadings doc)))
    as Hbody.
  destruct (foldl _ _ _) as [html last]. simpl in Hbody.
  rewrite Hbody; [by rewrite append_assoc|].
  by intros header [? _]%list_elem_of_filter.
Qed.

End RightNav.

Section RightNavTheorems.
Context `{Collaborators}.
Implicit Types (w : World).

(** C4 (amended): the navigation list is the outer list around the entries
    of the visible headings; before its entry a heading opens exactly one
    nested list when its level is above the level of the previous visible
    heading and closes exactly one when it is below, whatever the size of
    the jump. *)
Theorem populateRightNav_one_list_per_level_change w rightNav :
  getElementById (document w) "TableOfContents" = Some rightNav →
  populateRightNav w
  = Normal
      (withDocument w
         (setInnerHTML (document w) rightNav
            ("<ul>"
             +:+ navBody (Int 2)
                   (filter (visible (document w))
                      (querySelectorAll_contentHeadings (document w)))
             +:+ "</ul>")))
  ∧ (∀ p l, (p < l)%nat → listChange (Int p) (Int l) = "<ul>")
  ∧ (∀ p l, (l < p)%nat → listChange (Int p) (Int l) = "</ul>")
  ∧ (∀ l, listChange (Int l) (Int l) = EmptyString).
Proof.
  intros Hnav. split.
  { unfold populateRightNav. by rewrite Hnav, rightNavHtml_body. }
  unfold listChange, Number_lt, Number_gt.
  split; [|split]; intros; repeat case_bool_decide; (done || lia).
Qed.

(** C5: a heading that is hidden, by its own class or by the class of an
    ancestor, adds nothing to the list and leaves the last seen level as it
    was, so two documents with the same visible headings get the same list;
    for the headings A (h2), B (h3, hidden), C (h2) the list holds the
    entries of A and C side by side. *)
Theorem populateRightNav_skips_hidden_headings :
  (∀ doc header,
     elementIsHidden doc header = true
     ↔ "markdoc__hidden" ∈ classList doc header
       ∨ ∃ parent, parentElement header = Some parent
                   ∧ elementIsHidden doc parent = true)
  ∧ (∀ doc acc header,
       elementIsHidden doc header = true → navStep doc acc header = acc)
  ∧ (∀ doc doc',
       filter (visible doc) (querySelectorAll_contentHeadings doc)
       = filter (visible doc') (querySelectorAll_contentHeadings doc') →
       rightNavHtml doc = rightNavHtml doc')
  ∧ (∀ this0 : ClientRenderer,
       querySelectorAll_contentHeadings SamplePage.pageHiddenHeading
       = [SamplePage.headingA; SamplePage.headingB; SamplePage.headingC]
       ∧ elementIsHidden SamplePage.pageHiddenHeading SamplePage.headingB
         = true
       ∧ populateRightNav (mkWorld this0 SamplePage.pageHiddenHeading)
         = Normal
             (mkWorld this0
                (setInnerHTML SamplePage.pageHiddenHeading SamplePage.rightNav
                   ("<ul>" +:+ navEntry SamplePage.headingA
                    +:+ navEntry SamplePage.headingC +:+ "</ul>")))
       ∧ elementIsHidden SamplePage.page SamplePage.headingB = true
       ∧ rightNavHtml SamplePage.page
         = "<ul>" +:+ navEntry SamplePage.headingA
           +:+ navEntry SamplePage.headingC +:+ "</ul>").
Proof.
  split.
  { intros doc header. destruct header as [n tag i attrs text parent].
    simpl. unfold classList_contains. case_bool_decide as Hc.
    - split; [by left | done].
    - split.
      + destruct parent as [p|]; [|done]. intros Hp. right. eauto.
      + intros [Hin|(p & Hp & Hhid)]; [done|].
        simpl in Hp. by rewrite Hp. }
  split; [apply navStep_hidden|].
  split.
  { intros doc doc' Heq. by rewrite !rightNavHtml_body, Heq. }
  intros this0. repeat split; vm_compute; reflexivity.
Qed.

(** C6: without an element whose id is [TableOfContents],
    [populateRightNav] throws; nothing has been written. *)
Theorem populateRightNav_missing_container_is_fatal w :
  getElementById (document w) "TableOfContents" = None →
  populateRightNav w
  = Throw
      (Error ("Cannot find right nav element with id " +:+ dquote
              +:+ "TableOfContents" +:+ dquote))
      w.
Proof. intros Hnav. unfold populateRightNav. by rewrite Hnav. Qed.

End RightNavTheorems.

(** ** The evaluator of the specification *)
Section Evaluator.
Import SpecModel.

Lemma reevaluate_fixed e bindings e' :
  reevaluate e bindings = Ok e' → reevaluate e' bindings = Ok e'.
Proof.
  revert e'. induction e as [x lit c|x lit c|l IHl r IHr c|l IHl r IHr c|a IHa c];
    intros e'; simpl.
  - destruct (bindings !! x) as [o|] eqn:Hx; [|discriminate].
    intros [= <-]. simpl. by rewrite Hx.
  - destruct (bindings !! x) as [o|] eqn:Hx; [|discriminate].
    intros [= <-]. simpl. by rewrite Hx.
  - destruct (reevaluate l bindings) as [l'|]; [|discriminate].
    destruct (reevaluate r bindings) as [r'|]; [|discriminate].
    intros [= <-]. simpl. by rewrite (IHl l'), (IHr r').
  - destruct (reevaluate l bindings) as [l'|]; [|discriminate].
    destruct (reevaluate r bindings) as [r'|]; [|discriminate].
    intros [= <-]. simpl. by rewrite (IHl l'), (IHr r').
  - destruct (reevaluate a bindings) as [a'|]; [|discriminate].
    intros [= <-]. simpl. by rewrite (IHa a').
Qed.

Lemma reevaluate_history e earlier e0 bindings :
  reevaluate e earlier = Ok e0 →
  reevaluate e0 bindings = reevaluate e bindings.
Proof.
  revert e0.
  induction e as [x lit c|x lit c|l IHl r IHr c|l IHl r IHr c|a IHa c];
    intros e0; simpl.
  - destruct (earlier !! x); [|discriminate]. by intros [= <-].
  - destruct (earlier !! x); [|discriminate]. by intros [= <-].
  - destruct (reevaluate l earlier) as [l0|]; [|discriminate].
    destruct (reevaluate r earlier) as [r0|]; [|discriminate].
    intros [= <-]. simpl. by rewrite (IHl l0), (IHr r0).
  - destruct (reevaluate l earlier) as [l0|]; [|discriminate].
    destruct (reevaluate r earlier) as [r0|]; [|discriminate].
    intros [= <-]. simpl. by rewrite (IHl l0), (IHr r0).
  - destruct (reevaluate a earlier) as [a0|]; [|discriminate].
    intros [= <-]. simpl. by rewrite (IHa a0).
Qed.

End Evaluator.

(** ** The sample page *)
Section SamplePageChecks.
Import SpecModel SamplePage ErrorPages PrototypeNames.

Lemma handlePrefSelectionChange_evaluates_corrected_selection_witness :
  let wf := finalState (handlePrefSelectionChange (click "os" "windows") ready)
  in
  let corrected :=
    selectedValsByPrefId
      (this (finalState (rerenderChooser (clicked ready "os" "windows")))) in
  corrected !! "pkg" = Some "windows-stable"
  ∧ selectedValsByPrefId (this wf) = corrected
  ∧ ∀ ref f,
      JSRecord.get (ifFunctionsByRef (this ready)) ref = Some f →
      ∃ f', reevaluate f corrected = Ok f'
            ∧ JSRecord.get (ifFunctionsByRef (this wf)) ref = Some f'.
Proof.
  split; [vm_compute; reflexivity|].
  apply (handlePrefSelectionChange_evaluates_corrected_selection
           (click "os" "windows") ready (pill "os" "windows") "os" "windows").
  - reflexivity.
  - reflexivity.
  - reflexivity.
  - apply (bool_decide_unpack _). vm_compute. exact I.
  - vm_compute. reflexivity.
Defined.

(** C2, as the claim states it, fails: one function changes value, the
    page has no block for its reference, and no hidden flag changes. *)
Lemma changed_function_without_block_changes_no_flag :
  let w' := finalState (rerenderPageContent pruned) in
  rerenderPageContent pruned = Normal w'
  ∧ JSRecord.keys (ifFunctionsByRef (this pruned)) = ["ref-b"]
  ∧ (exprValue <$> JSRecord.get (ifFunctionsByRef (this pruned)) "ref-b")
    = Some false
  ∧ (exprValue <$> JSRecord.get (ifFunctionsByRef (this w')) "ref-b")
    = Some true
  ∧ toggleables pruned = []
  ∧ ¬ ∃ b, b ∈ allElements (document pruned)
           ∧ hiddenFlag (document w') b ≠ hiddenFlag (document pruned) b.
Proof.
  repeat split; try (vm_compute; reflexivity).
  intros (b & _ & Hflag). apply Hflag.
  replace (document (finalState (rerenderPageContent pruned)))
    with (document pruned) by (vm_compute; reflexivity).
  reflexivity.
Qed.

Lemma rerenderPageContent_minimal_diff_witness :
  let w' := finalState (rerenderPageContent selected) in
  (hiddenFlag (document w') blockB ≠ hiddenFlag page blockB ↔ blockB = blockB)
  ∧ (hiddenFlag (document w') headingB ≠ hiddenFlag page headingB
     ↔ headingB = blockB).
Proof.
  assert (toggleables selected = [blockB]) as Hblocks
    by (vm_compute; reflexivity).
  assert (∀ r, valueChanged selected
                 (finalState (rerenderPageContent selected)) r →
               r = "ref-b") as Honly.
  { intros r (f & f' & Hf & _). simpl in Hf.
    destruct (decide ("ref-b" = r)); [congruence | discriminate]. }
  assert (∀ b r, b ∈ toggleables selected →
            getAttribute b "data-if" = Some r → r ≠ "ref-b" →
            r ∉ PlainObject.prototypeKeys) as Hplain.
  { intros b r Hb Hattr Hne. rewrite Hblocks in Hb.
    apply list_elem_of_singleton in Hb as ->.
    vm_compute in Hattr. congruence. }
  pose proof
    (proj1 (proj2 (proj2 (rerenderPageContent_minimal_diff selected
                    (finalState (rerenderPageContent selected))
                    ltac:(apply (bool_decide_unpack _); vm_compute; exact I)
                    ltac:(apply (bool_decide_unpack _); vm_compute; exact I)
                    ltac:(apply returned_finalState; vm_compute;
                          reflexivity)))
             "ref-b"
             ltac:(exists gateB, (Equals "pkg" "windows-beta" true);
                   split; [reflexivity|]; split; [vm_compute; reflexivity|];
                   simpl; discriminate)
             Honly Hplain) blockB gateB) as Hone.
  assert (∀ b, b ∈ allElements (document selected) →
            hiddenFlag (document (finalState (rerenderPageContent selected))) b
            ≠ hiddenFlag (document selected) b ↔ b = blockB) as Hflag.
  { apply Hone.
    - rewrite Hblocks. apply list_elem_of_here.
    - reflexivity.
    - rewrite Hblocks. intros b Hb _. by apply list_elem_of_singleton in Hb.
    - reflexivity.
    - vm_compute. reflexivity. }
  split; apply Hflag; simpl;
    repeat (first [apply list_elem_of_here | apply list_elem_of_further]).
Defined.

(** C3, as the claim states it, fails: the block of the sample page has a
    [data-if] attribute and no function under that reference, and the pass
    returns without touching anything. *)
Lemma orphan_block_is_skipped :
  toggleables orphaned = [blockB]
  ∧ getAttribute blockB "data-if" = Some "ref-b"
  ∧ JSRecord.get (ifFunctionsByRef (this orphaned)) "ref-b" = None
  ∧ rerenderPageContent orphaned = Normal orphaned.
Proof. repeat split; vm_compute; reflexivity. Qed.

Lemma rerenderPageContent_missing_ref_fatal_orphan_skipped_witness :
  ∃ w', rerenderPageContent (mkWorld (renderer ∅ []) pageBlockNoRef)
        = Throw (Error "No ref found on toggleable element") w'.
Proof.
  apply (proj1 (rerenderPageContent_missing_ref_fatal_orphan_skipped
                  (mkWorld (renderer ∅ []) pageBlockNoRef)
                  ltac:(apply (bool_decide_unpack _); vm_compute; exact I)
                  ltac:(apply (bool_decide_unpack _); vm_compute; exact I)
                  ltac:(simpl; discriminate))).
  exists blockNoRef. split; [|reflexivity].
  change (toggleables (mkWorld (renderer ∅ []) pageBlockNoRef))
    with (getElementsByClassName pageBlockNoRef "markdoc__toggleable").
  assert (getElementsByClassName pageBlockNoRef "markdoc__toggleable"
          = [blockNoRef]) as -> by (vm_compute; reflexivity).
  apply list_elem_of_here.
Defined.

(** C4, as the claim states it, fails: after [A] at level 2 the heading
    [D] at level 4 opens one nested list, not two. *)
Lemma jump_of_two_levels_opens_one_list :
  let html := rightNavHtml pageDeepHeading in
  querySelectorAll_contentHeadings pageDeepHeading = [headingA; headingD]
  ∧ headerLevel headingA = Int 2
  ∧ headerLevel headingD = Int 4
  ∧ populateRightNav (mkWorld uninitialized pageDeepHeading)
    = Normal (mkWorld uninitialized
                (setInnerHTML pageDeepHeading rightNav html))
  ∧ html = "<ul>" +:+ navEntry headingA +:+ "<ul>" +:+ navEntry headingD
           +:+ "</ul>"
  ∧ ¬ ∃ before after,
        html = before +:+ ("<ul><ul>" +:+ navEntry headingD) +:+ after.
Proof.
  repeat split; try (vm_compute; reflexivity).
  intros (before & after & Heq).
  pose proof (isInfix_append ("<ul><ul>" +:+ navEntry headingD) before after)
    as Hinfix.
  rewrite <- Heq in Hinfix. vm_compute in Hinfix. discriminate.
Qed.

Lemma populateRightNav_one_list_per_level_change_witness :
  listChange (headerLevel headingA) (headerLevel headingD) = "<ul>".
Proof.
  apply (proj1 (proj2 (populateRightNav_one_list_per_level_change
                         (mkWorld uninitialized pageDeepHeading) rightNav
                         ltac:(vm_compute; reflexivity))) 2 4).
  lia.
Defined.

Lemma populateRightNav_skips_hidden_headings_witness :
  navStep page ("<ul>" +:+ navEntry headingA, Int 2) headingB
  = ("<ul>" +:+ navEntry headingA, Int 2).
Proof.
  apply (proj1 (proj2 (@populateRightNav_skips_hidden_headings collaborators))).
  vm_compute. reflexivity.
Defined.

Lemma populateRightNav_missing_container_is_fatal_witness :
  populateRightNav (mkWorld uninitialized pageNoRightNav)
  = Throw rightNavMissing (mkWorld uninitialized pageNoRightNav).
Proof.
  apply (populateRightNav_missing_container_is_fatal
           (mkWorld uninitialized pageNoRightNav)).
  vm_compute. reflexivity.
Defined.

Lemma handlePrefSelectionChange_ignores_unmatched_events_witness :
  handlePrefSelectionChange clickNoOption ready = Normal ready.
Proof.
  apply (handlePrefSelectionChange_ignores_unmatched_events clickNoOption ready).
  right. right. eexists. split; [reflexivity|]. right. vm_compute. reflexivity.
Defined.

Lemma rerenderPageContent_second_pass_shows_block_witness :
  let w1 := finalState (rerenderPageContent namedToString) in
  hiddenFlag (document namedToString) blockToString = false
  ∧ hiddenFlag (document w1) blockToString = true
  ∧ ∃ w2, rerenderPageContent w1 = Normal w2
          ∧ selectedValsByPrefId (this w2)
            = selectedValsByPrefId (this namedToString)
          ∧ ifFunctionsByRef (this w2) = ifFunctionsByRef (this w1)
          ∧ hiddenFlag (document w2) blockToString = false.
Proof.
  split; [vm_compute; reflexivity|].
  apply (rerenderPageContent_second_pass_shows_block namedToString
           (finalState (rerenderPageContent namedToString))
           blockToString "toString"
           (Equals "pkg" "windows-beta" true)
           (Equals "pkg" "windows-beta" false)).
  - intros f vars f'. apply reevaluate_fixed.
  - apply (bool_decide_unpack _). vm_compute. exact I.
  - apply (bool_decide_unpack _). vm_compute. exact I.
  - apply returned_finalState. vm_compute. reflexivity.
  - vm_compute. apply list_elem_of_here.
  - reflexivity.
  - apply (bool_decide_unpack _). vm_compute. exact I.
  - reflexivity.
  - vm_compute. reflexivity.
  - reflexivity.
  - reflexivity.
Defined.

Lemma initialize_drops_proto_entry_witness :
  let w0 := finalState (initialize protoParams (mkWorld uninitialized page)) in
  JSRecord.keys (p_ifFunctionsByRef protoParams) = ["ref-b"; "__proto__"]
  ∧ JSRecord.keys (ifFunctionsByRef (this w0)) = ["ref-b"]
  ∧ JSRecord.get (ifFunctionsByRef (this w0)) "__proto__" = None
  ∧ (length (JSRecord.keys (ifFunctionsByRef (this w0))) < 2)%nat.
Proof.
  split; [reflexivity|].
  apply (initialize_drops_proto_entry protoParams
           (mkWorld uninitialized page) (Equals "os" "linux" false)).
  - apply (bool_decide_unpack _). vm_compute. exact I.
  - intros ref m _. exists m. reflexivity.
  - reflexivity.
Defined.

Lemma rerenderChooser_skips_proto_preference_witness :
  let w' := finalState (rerenderChooser protoReady) in
  resolve protoDefinitions optionDefinitions ∅ = Ok resolvedProto
  ∧ rerenderChooser protoReady = Normal w'
  ∧ selectedValsByPrefId (this w') !! "os" = Some "linux"
  ∧ selectedValsByPrefId (this w') !! "__proto__" = None
  ∧ selectedValsByPrefId (this (finalState (rerenderPageContent w')))
    !! "__proto__" = None.
Proof.
  split; [vm_compute; reflexivity|].
  split; [apply returned_finalState; vm_compute; reflexivity|].
  split; [vm_compute; reflexivity|].
  apply (rerenderChooser_skips_proto_preference protoReady
           (finalState (rerenderChooser protoReady))
           protoDefinitions optionDefinitions resolvedProto "__proto__"
           (mkResolvedPreference "__proto__" ["on"; "off"] "on")).
  - reflexivity.
  - reflexivity.
  - vm_compute. reflexivity.
  - apply list_elem_of_further, list_elem_of_here.
  - reflexivity.
  - reflexivity.
  - apply returned_finalState. vm_compute. reflexivity.
Defined.

End SamplePageChecks.

(** * Further properties of the controller *)

(** ** rerenderPageContent: what a pass keeps and how it fails *)
Section PageContentMore.
Context `{Collaborators}.
Implicit Types (w : World) (ref : string).

#[local] Arguments reresolveStep : simpl never.
#[local] Arguments toggleStep : simpl never.
#[local] Arguments navStep : simpl never.

Lemma forEach_app_throw {A S : Type} (pre post : list A) (x : A)
  (body : S → A → Completion S) (s s1 s2 : S) (e : Exception) :
  forEach pre body s = Normal s1 →
  body s1 x = Throw e s2 →
  forEach (pre ++ x :: post) body s = Throw e s2.
Proof.
  revert s. induction pre as [|y pre IH]; simpl; intros s Hpre Hx.
  - injection Hpre as ->. by rewrite Hx.
  - destruct (body s y) as [s'|e' s']; [by apply IH | discriminate].
Qed.

Lemma forEach_reresolve_fails vars ks (fns : JSRecord.t ClientFunction) st
  ref f e :
  NoDup ks → ref ∈ ks →
  JSRecord.get fns ref = Some f →
  reresolveFunctionNode f vars = Raised e →
  ∃ e' acc, forEach ks (reresolveStep vars) (fns, st) = Throw e' acc.
Proof.
  revert fns st. induction ks as [|k ks IH]; simpl;
    intros fns st Hnd Hin Hget Hres.
  - by apply elem_of_nil in Hin.
  - apply NoDup_cons in Hnd as [Hk Hnd].
    destruct (reresolveStep_cases vars fns st k)
      as [[e' He]|(g & g' & Hg & Hgres & He)]; rewrite He; [eauto|].
    apply elem_of_cons in Hin as [->|Hin]; [congruence|].
    apply (IH _ _ Hnd Hin); [|done].
    rewrite get_set_ne; [done|]. intros ->. done.
Qed.

(** X1: on a page none of whose blocks is named like a property of
    [Object.prototype], blocks that agree with their functions before a
    pass agree with them after it. *)
Theorem rerenderPageContent_keeps_blocks_in_sync w w' :
  NoDup (JSRecord.keys (ifFunctionsByRef (this w))) →
  NoDup (nodeId <$> allElements (document w)) →
  rerenderPageContent w = Normal w' →
  (∀ block ref,
     block ∈ toggleables w →
     getAttribute block "data-if" = Some ref →
     ref ∉ PlainObject.prototypeKeys) →
  (∀ block ref f,
     block ∈ toggleables w →
     getAttribute block "data-if" = Some ref →
     JSRecord.get (ifFunctionsByRef (this w)) ref = Some f →
     hiddenFlag (document w) block = negb (value f)) →
  toggleables w' = toggleables w
  ∧ ∀ block ref f',
      block ∈ toggleables w' →
      getAttribute block "data-if" = Some ref →
      JSRecord.get (ifFunctionsByRef (this w')) ref = Some f' →
      hiddenFlag (document w') block = negb (value f').
Proof.
  intros Hkeys Hnodes Hpass Hplain Hsync.
  destruct (rerenderPageContent_Normal w w' Hpass)
    as (fns' & st & doc' & Hfns & Hdoc & ->).
  pose proof (toggleables_after_toggle w st) as Htog.
  rewrite Hdoc in Htog. simpl in Htog.
  assert (toggleables (withDocument (withIfFunctions w fns') doc')
          = toggleables w) as Hsame by exact Htog.
  split; [done|]. rewrite Hsame. simpl.
  intros block ref f' Hin Hattr Hf'.
  pose proof (newDisplayStatus_spec w fns' st ref Hkeys Hfns) as Hst.
  destruct (JSRecord.get (ifFunctionsByRef (this w)) ref) as [f|] eqn:Hf;
    [|destruct Hst; congruence].
  destruct Hst as (f0 & _ & Hf0 & Hst). rewrite Hf' in Hf0.
  injection Hf0 as <-.
  destruct (toggle_loop_self st _ _ _ block (toggleables_NoDup w Hnodes)
              Hdoc Hin) as (r & Hr & Hcl).
  apply truthy_Some in Hr. rewrite Hattr in Hr. injection Hr as <-.
  unfold hiddenFlag, classList_contains.
  rewrite Hcl, displayStatus_plain, Hst by eauto.
  case_bool_decide as Hch.
  - apply hidden_toggled.
  - simpl. assert (value f = value f') as <-
      by (destruct (decide (value f = value f')); tauto).
    apply (Hsync block ref f Hin Hattr Hf).
Qed.

(** X2: when the evaluator raises on one of the functions, the pass throws
    before it has touched the document or the selections. *)
Theorem rerenderPageContent_evaluator_failure w ref f e :
  NoDup (JSRecord.keys (ifFunctionsByRef (this w))) →
  JSRecord.get (ifFunctionsByRef (this w)) ref = Some f →
  reresolveFunctionNode f (selectedValsByPrefId (this w)) = Raised e →
  ∃ e' w', rerenderPageContent w = Throw e' w'
           ∧ document w' = document w
           ∧ selectedValsByPrefId (this w') = selectedValsByPrefId (this w)
           ∧ JSRecord.keys (ifFunctionsByRef (this w'))
             = JSRecord.keys (ifFunctionsByRef (this w)).
Proof.
  intros Hkeys Hget Hres.
  destruct (forEach_reresolve_fails (selectedValsByPrefId (this w))
              (JSRecord.keys (ifFunctionsByRef (this w)))
              (ifFunctionsByRef (this w)) ∅ ref f e Hkeys)
    as (e' & [fns' st] & Hrun); [apply get_is_Some; eauto|done..|].
  pose proof (forEach_reresolve_keys (selectedValsByPrefId (this w))
                (JSRecord.keys (ifFunctionsByRef (this w)))
                (ifFunctionsByRef (this w)) ∅) as Hk.
  rewrite Hrun in Hk. simpl in Hk.
  exists e', (withIfFunctions w fns').
  unfold rerenderPageContent. by rewrite Hrun.
Qed.

(** X3: a toggleable element without [data-if] stops the pass midway: the
    functions already hold their new values, the blocks before the element
    have been toggled, the element and the blocks after it keep their class
    lists. *)
Theorem rerenderPageContent_missing_ref_stops_midway w pre bad post :
  NoDup (JSRecord.keys (ifFunctionsByRef (this w))) →
  NoDup (nodeId <$> allElements (document w)) →
  (∀ ref f, JSRecord.get (ifFunctionsByRef (this w)) ref = Some f →
     ∃ f', reresolveFunctionNode f (selectedValsByPrefId (this w)) = Ok f') →
  toggleables w = pre ++ bad :: post →
  (∀ b, b ∈ pre → is_Some (truthy (getAttribute b "data-if"))) →
  truthy (getAttribute bad "data-if") = None →
  ∃ w',
    rerenderPageContent w
    = Throw (Error "No ref found on toggleable element") w'
    ∧ (∀ ref f,
         JSRecord.get (ifFunctionsByRef (this w)) ref = Some f →
         ∃ f', reresolveFunctionNode f (selectedValsByPrefId (this w)) = Ok f'
               ∧ JSRecord.get (ifFunctionsByRef (this w')) ref = Some f')
    ∧ (∀ block ref f f',
         block ∈ pre →
         getAttribute block "data-if" = Some ref →
         JSRecord.get (ifFunctionsByRef (this w)) ref = Some f →
         JSRecord.get (ifFunctionsByRef (this w')) ref = Some f' →
         value f' ≠ value f →
         hiddenFlag (document w') block = negb (value f'))
    ∧ (∀ b, b ∈ bad :: post →
         classLists (document w') !! nodeId b
         = classLists (document w) !! nodeId b).
Proof.
  intros Hkeys Hnodes Hevals Hsplit Hpre Hbad.
  destruct (forEach_reresolve_total (selectedValsByPrefId (this w))
              (JSRecord.keys (ifFunctionsByRef (this w)))
              (ifFunctionsByRef (this w)) ∅ Hkeys) as [[fns' st] Hfns].
  { intros ref [f Hf]%get_is_Some. destruct (Hevals ref f Hf) as [f' Hf'].
    eauto. }
  pose proof (toggleables_NoDup w Hnodes) as Hnd.
  rewrite Hsplit, fmap_app in Hnd.
  apply NoDup_app in Hnd as (Hndpre & Hdisj & _).
  pose proof (toggle_loop_total st pre (document w) Hpre) as Hrun.
  set (doc' := foldl (applyToggle st) (document w) pre) in *.
  exists (withDocument (withIfFunctions w fns') doc').
  split.
  { unfold rerenderPageContent. rewrite Hfns. simpl.
    fold (toggleables w). rewrite Hsplit.
    rewrite (forEach_app_throw pre post bad (toggleStep st) (document w)
               doc' doc' noRefFound Hrun); [done|].
    destruct (toggleStep_cases st doc' bad) as [[_ ->]|(r & Hr & _)];
      [done|]. unfold dataIf in Hr. congruence. }
  simpl. split; [|split].
  - intros ref f Hf.
    pose proof (newDisplayStatus_spec w fns' st ref Hkeys Hfns) as Hst.
    rewrite Hf in Hst. destruct Hst as (f' & Hres & Hget & _). eauto.
  - intros block ref f f' Hin Hattr Hf Hf' Hne.
    pose proof (newDisplayStatus_spec w fns' st ref Hkeys Hfns) as Hst.
    rewrite Hf in Hst. destruct Hst as (f0 & _ & Hf0 & Hst).
    rewrite Hf' in Hf0. injection Hf0 as <-.
    rewrite bool_decide_eq_true_2 in Hst by congruence.
    destruct (toggle_loop_self st pre (document w) doc' block Hndpre Hrun Hin)
      as (r & Hr & Hcl).
    apply truthy_Some in Hr. rewrite Hattr in Hr. injection Hr as <-.
    unfold hiddenFlag, classList_contains.
    rewrite Hcl, (displayStatus_own _ _ _ Hst).
    apply hidden_toggled.
  - intros b Hb.
    replace doc' with (finalState (forEach pre (toggleStep st) (document w)))
      by (by rewrite Hrun).
    apply toggle_loop_other. intros t r Ht _ _ Heq.
    apply (Hdisj (nodeId t)); [by apply list_elem_of_fmap_2|].
    rewrite Heq. by apply list_elem_of_fmap_2.
Qed.

Lemma elementIsHidden_ancestor doc (block : Element) :
  hiddenFlag doc block = true →
  ∀ e, hasAncestorOrSelf (nodeId block) e = true →
       elementIsHidden doc e = true.
Proof.
  intros Hflag. fix IH 1. intros e Hanc.
  destruct e as [n tag i attrs text parent]. simpl in *.
  destruct (classList_contains doc (mkElement n tag i attrs text parent)
              "markdoc__hidden") eqn:Hown; [done|].
  apply orb_true_iff in Hanc as [Hn|Hp].
  - apply bool_decide_eq_true in Hn.
    unfold hiddenFlag, classList_contains, classList in *. simpl in Hown.
    rewrite Hn in Hown. congruence.
  - destruct parent as [p|]; [by apply IH | done].
Qed.

(** X4: a heading below a block that the pass has just hidden is hidden for
    [populateRightNav] in the document the pass leaves. *)
Theorem rerenderPageContent_hides_headings_below w w' block ref f f' heading :
  NoDup (JSRecord.keys (ifFunctionsByRef (this w))) →
  NoDup (nodeId <$> allElements (document w)) →
  rerenderPageContent w = Normal w' →
  block ∈ toggleables w →
  getAttribute block "data-if" = Some ref →
  JSRecord.get (ifFunctionsByRef (this w)) ref = Some f →
  JSRecord.get (ifFunctionsByRef (this w')) ref = Some f' →
  value f = true → value f' = false →
  hasAncestorOrSelf (nodeId block) heading = true →
  elementIsHidden (document w') heading = true
  ∧ ∀ acc, navStep (document w') acc heading = acc.
Proof.
  intros Hkeys Hnodes Hpass Hin Hattr Hf Hf' Hold Hnew Hanc.
  assert (elementIsHidden (document w') heading = true) as Hhid.
  { apply (elementIsHidden_ancestor _ block); [|done].
    destruct (rerenderPageContent_Normal w w' Hpass)
      as (fns' & st & doc' & Hfns & Hdoc & ->). simpl in *.
    pose proof (newDisplayStatus_spec w fns' st ref Hkeys Hfns) as Hst.
    rewrite Hf in Hst. destruct Hst as (f0 & _ & Hf0 & Hst).
    rewrite Hf' in Hf0. injection Hf0 as <-.
    rewrite bool_decide_eq_true_2 in Hst by congruence.
    destruct (toggle_loop_self st _ _ _ block (toggleables_NoDup w Hnodes)
                Hdoc Hin) as (r & Hr & Hcl).
    apply truthy_Some in Hr. rewrite Hattr in Hr. injection Hr as <-.
    unfold hiddenFlag, classList_contains.
    rewrite Hcl, (displayStatus_own _ _ _ Hst), Hnew.
    apply (hidden_toggled false). }
  split; [done|]. intros acc. by apply navStep_hidden.
Qed.

(** X24: a block whose reference is the name of a property of
    [Object.prototype] is shown by every pass that does not change the
    value of a function stored under that name, whether or not such a
    function exists and whatever its value: the block loses the hidden
    class and keeps its other classes. *)
Theorem rerenderPageContent_shows_inherited_names w w' block ref :
  NoDup (JSRecord.keys (ifFunctionsByRef (this w))) →
  NoDup (nodeId <$> allElements (document w)) →
  rerenderPageContent w = Normal w' →
  block ∈ toggleables w →
  getAttribute block "data-if" = Some ref →
  ref ∈ PlainObject.prototypeKeys →
  ¬ valueChanged w w' ref →
  hiddenFlag (document w') block = false
  ∧ ∀ token, token ≠ "markdoc__hidden" →
      (token ∈ classList (document w') block
       ↔ token ∈ classList (document w) block).
Proof.
  intros Hkeys Hnodes Hpass Hin Hattr Hname Hsame.
  destruct (rerenderPageContent_Normal w w' Hpass)
    as (fns' & st & doc' & Hfns & Hdoc & ->). simpl.
  assert (st !! ref = None) as Hst.
  { pose proof (newDisplayStatus_spec w fns' st ref Hkeys Hfns) as Hspec.
    destruct (JSRecord.get (ifFunctionsByRef (this w)) ref) as [f|] eqn:Hf;
      [|by destruct Hspec].
    destruct Hspec as (f' & _ & Hf' & ->).
    case_bool_decide as Hch; [|done].
    exfalso. apply Hsame. exists f, f'. simpl. eauto. }
  destruct (toggle_loop_self st _ _ _ block (toggleables_NoDup w Hnodes)
              Hdoc Hin) as (r & Hr & Hcl).
  apply truthy_Some in Hr. rewrite Hattr in Hr. injection Hr as <-.
  rewrite displayStatus_inherited in Hcl by done.
  unfold hiddenFlag, classList_contains. rewrite Hcl.
  split; [apply (hidden_toggled true)|].
  intros token Hne. by apply token_toggled.
Qed.

End PageContentMore.

(** ** The selection change: failures and what is never touched *)
Section CycleMore.
Context `{Collaborators}.
Implicit Types (w : World) (e : Event).

#[local] Arguments reresolveStep : simpl never.
#[local] Arguments toggleStep : simpl never.
#[local] Arguments alignStep : simpl never.

Lemma getElementById_ext (d d' : Document) i :
  allElements d' = allElements d → getElementById d' i = getElementById d i.
Proof. intros Heq. unfold getElementById. by rewrite Heq. Qed.

(** The ways [rerenderChooser] ends. *)
Lemma rerenderChooser_outcome w :
  ((pagePrefsConfig (this w) = None ∨ prefOptionsConfig (this w) = None
    ∨ chooserElement (this w) = None)
   ∧ rerenderChooser w = Throw cannotRerender w)
  ∨ ∃ pagePrefs prefOptions chooser,
      pagePrefsConfig (this w) = Some pagePrefs
      ∧ prefOptionsConfig (this w) = Some prefOptions
      ∧ chooserElement (this w) = Some chooser
      ∧ ((∃ ex, resolveMinifiedPagePrefs pagePrefs prefOptions
                  (selectedValsByPrefId (this w)) = Raised ex
                ∧ rerenderChooser w = Throw ex w)
         ∨ ∃ resolved vals,
             resolveMinifiedPagePrefs pagePrefs prefOptions
               (selectedValsByPrefId (this w)) = Ok resolved
             ∧ forEach (JSRecord.keys resolved) (alignStep resolved)
                 (selectedValsByPrefId (this w)) = Normal vals
             ∧ ((∃ ex, getChooserHtml resolved = Raised ex
                       ∧ rerenderChooser w = Throw ex (withSelectedVals w vals))
                ∨ ∃ html,
                    getChooserHtml resolved = Ok html
                    ∧ rerenderChooser w
                      = Normal (withDocument (withSelectedVals w vals)
                                  (setInnerHTML (document w) chooser html)))).
Proof.
  unfold rerenderChooser, cannotRerender.
  destruct (pagePrefsConfig (this w)) as [pagePrefs|]; [|left; auto].
  destruct (prefOptionsConfig (this w)) as [prefOptions|]; [|left; auto].
  destruct (chooserElement (this w)) as [chooser|]; [|left; auto].
  right. exists pagePrefs, prefOptions, chooser.
  split; [done|]. split; [done|]. split; [done|].
  destruct (resolveMinifiedPagePrefs _ _ _) as [resolved|ex]; [|left; eauto].
  right. destruct (forEach_align_total resolved (selectedValsByPrefId (this w)))
    as [vals Hvals].
  exists resolved, vals. rewrite Hvals. split; [done|]. split; [done|].
  destruct (getChooserHtml resolved) as [html|ex]; [right|left]; eauto.
Qed.

(** X5: a selection change on a controller that lacks its configuration or
    its chooser element throws after the clicked option has been assigned:
    the option is recorded all the same, except under the preference id
    [__proto__], where the assignment stores nothing; nothing else has
    changed. *)
Theorem handlePrefSelectionChange_unconfigured_records_click
  e w node prefId optionId :
  target e = Some (ElementTarget node) →
  truthy (getAttribute node "data-pref-id") = Some prefId →
  truthy (getAttribute node "data-option-id") = Some optionId →
  pagePrefsConfig (this w) = None ∨ prefOptionsConfig (this w) = None
  ∨ chooserElement (this w) = None →
  handlePrefSelectionChange e w
  = Throw
      (Error "Cannot rerender chooser without pagePrefsConfig, prefOptionsConfig, and chooserElement")
      (clicked w prefId optionId)
  ∧ (prefId ≠ "__proto__" →
     selectedValsByPrefId (this (clicked w prefId optionId))
     = <[prefId := optionId]> (selectedValsByPrefId (this w)))
  ∧ (prefId = "__proto__" →
     selectedValsByPrefId (this w) !! prefId = None →
     selectedValsByPrefId (this (clicked w prefId optionId))
     = selectedValsByPrefId (this w)).
Proof.
  intros Ht Hp Ho Hmissing.
  rewrite (handlePrefSelectionChange_clicked e w node prefId optionId Ht Hp Ho).
  split; [|split].
  - destruct (rerenderChooser_outcome (clicked w prefId optionId))
      as [[_ ->]|(pp & po & ch & Hpp & Hpo & Hch & _)]; [done|].
    simpl in *. destruct Hmissing as [?|[?|?]]; congruence.
  - intros Hne. simpl. apply assign_insert. by left.
  - intros -> Hnone. simpl. by apply assign_proto.
Qed.

(** X6: when the resolver raises on the selections that hold the clicked
    option, the selection change throws its exception; the assignment of
    the clicked option is not undone although no preference was resolved,
    and the functions and the document are as before. *)
Theorem handlePrefSelectionChange_resolver_failure_records_click
  e w node prefId optionId pagePrefs prefOptions chooser ex :
  target e = Some (ElementTarget node) →
  truthy (getAttribute node "data-pref-id") = Some prefId →
  truthy (getAttribute node "data-option-id") = Some optionId →
  pagePrefsConfig (this w) = Some pagePrefs →
  prefOptionsConfig (this w) = Some prefOptions →
  chooserElement (this w) = Some chooser →
  resolveMinifiedPagePrefs pagePrefs prefOptions
    (selectedValsByPrefId (this (clicked w prefId optionId))) = Raised ex →
  handlePrefSelectionChange e w = Throw ex (clicked w prefId optionId)
  ∧ (prefId ≠ "__proto__" →
     selectedValsByPrefId (this (clicked w prefId optionId))
     = <[prefId := optionId]> (selectedValsByPrefId (this w))).
Proof.
  intros Ht Hp Ho Hpp Hpo Hch Hres.
  rewrite (handlePrefSelectionChange_clicked e w node prefId optionId Ht Hp Ho).
  split; [|intros Hne; simpl; apply assign_insert; by left].
  destruct (rerenderChooser_outcome (clicked w prefId optionId))
    as [[Hmiss _]|(pp & po & ch & Hpp' & Hpo' & Hch' & Hout)]; simpl in *.
  { destruct Hmiss as [?|[?|?]]; congruence. }
  rewrite Hpp in Hpp'. rewrite Hpo in Hpo'.
  injection Hpp' as <-. injection Hpo' as <-.
  destruct Hout as [(ex' & Hres' & ->)|(resolved & vals & Hres' & _)];
    [|congruence].
  rewrite Hres in Hres'. by injection Hres' as <-.
Qed.

(** X7: when the chooser markup cannot be rendered, [rerenderChooser]
    throws after it has aligned the selections with the resolved
    preferences (each one whose id is not [__proto__] has its current value
    recorded); the chooser element keeps its markup. *)
Theorem rerenderChooser_markup_failure_after_alignment
  w pagePrefs prefOptions chooser (resolved : JSRecord.t ResolvedPagePref) ex :
  pagePrefsConfig (this w) = Some pagePrefs →
  prefOptionsConfig (this w) = Some prefOptions →
  chooserElement (this w) = Some chooser →
  resolveMinifiedPagePrefs pagePrefs prefOptions
    (selectedValsByPrefId (this w)) = Ok resolved →
  NoDup (JSRecord.keys resolved) →
  (∀ k p, (k, p) ∈ resolved → pref_id p = k) →
  getChooserHtml resolved = Raised ex →
  ∃ w', rerenderChooser w = Throw ex w'
        ∧ document w' = document w
        ∧ ifFunctionsByRef (this w') = ifFunctionsByRef (this w)
        ∧ ∀ k p, (k, p) ∈ resolved → k ≠ "__proto__" →
            selectedValsByPrefId (this w') !! k = Some (currentValue p).
Proof.
  intros Hpp Hpo Hch Hres Hkeys Hids Hhtml.
  destruct (rerenderChooser_outcome w)
    as [[Hmiss _]|(pp & po & ch & Hpp' & Hpo' & Hch' & Hout)].
  { destruct Hmiss as [?|[?|?]]; congruence. }
  rewrite Hpp in Hpp'. rewrite Hpo in Hpo'.
  injection Hpp' as <-. injection Hpo' as <-.
  destruct Hout as [(ex' & Hres' & _)|(resolved' & vals & Hres' & Hvals & Hout)];
    [congruence|].
  rewrite Hres in Hres'. injection Hres' as <-.
  destruct Hout as [(ex' & Hhtml' & Hrun)|(html & Hhtml' & _)]; [|congruence].
  rewrite Hhtml in Hhtml'. injection Hhtml' as <-.
  exists (withSelectedVals w vals). split; [done|]. split; [done|].
  split; [done|]. simpl.
  rewrite forEach_align_foldl in Hvals by (intros; by apply get_elem_of).
  injection Hvals as <-. intros k p Hin Hne.
  rewrite <- (Hids k p Hin) in Hne |- * at 1.
  eapply foldl_align_lookup; [|done..].
  by rewrite (keyed_by_id_keys resolved Hids).
Qed.

(** X8: a selection change never deletes a selection: a preference that had
    a selected value before the handler ran has one after it, whatever the
    outcome. *)
Theorem handlePrefSelectionChange_keeps_selection_keys e w k :
  is_Some (selectedValsByPrefId (this w) !! k) →
  is_Some
    (selectedValsByPrefId (this (finalState (handlePrefSelectionChange e w)))
     !! k).
Proof.
  intros Hk. unfold handlePrefSelectionChange.
  destruct (target e) as [[|node]|]; [done| |done].
  destruct (truthy (getAttribute node "data-pref-id")) as [prefId|]; [|done].
  destruct (truthy (getAttribute node "data-option-id")) as [optionId|];
    [|done].
  fold (clicked w prefId optionId).
  pose proof (rerenderChooser_selection_invariant
                (λ vals, is_Some (vals !! k)) (clicked w prefId optionId))
    as Hchooser.
  simpl in Hchooser.
  assert (∀ (vals : gmap string string) (i v : string),
            is_Some (vals !! k) → is_Some (PlainObject.assign vals i v !! k))
    as Hins.
  { intros vals i v Hv. by apply lookup_assign_is_Some. }
  specialize (Hchooser (Hins _ _ _ Hk) Hins).
  destruct (rerenderChooser (clicked w prefId optionId)) as [wc|ex wc];
    simpl in *; [|done].
  pose proof (rerenderPageContent_frame wc) as [Hsel _].
  destruct (rerenderPageContent wc) as [w2|ex w2]; simpl in *;
    [|by rewrite Hsel].
  pose proof (populateRightNav_frame w2) as (Hthis & _).
  simpl in Hthis. by rewrite Hthis, Hsel.
Qed.

End CycleMore.

Section CycleFrames.
Context `{Collaborators}.
Implicit Types (w : World) (e : Event).

#[local] Arguments reresolveStep : simpl never.
#[local] Arguments toggleStep : simpl never.
#[local] Arguments alignStep : simpl never.

Lemma rerenderChooser_configuration w :
  let w' := finalState (rerenderChooser w) in
  prefOptionsConfig (this w') = prefOptionsConfig (this w)
  ∧ pagePrefsConfig (this w') = pagePrefsConfig (this w)
  ∧ chooserElement (this w') = chooserElement (this w).
Proof.
  destruct (rerenderChooser_outcome w)
    as [[_ ->]|(pp & po & ch & _ & _ & _
                & [(ex & _ & ->)
                  |(resolved & vals & _ & _
                    & [(ex & _ & ->)|(html & _ & ->)])])]; done.
Qed.

Lemma rerenderPageContent_configuration w :
  let w' := finalState (rerenderPageContent w) in
  prefOptionsConfig (this w') = prefOptionsConfig (this w)
  ∧ pagePrefsConfig (this w') = pagePrefsConfig (this w)
  ∧ chooserElement (this w') = chooserElement (this w).
Proof.
  unfold rerenderPageContent.
  destruct (forEach _ (reresolveStep _) _) as [[fns' st]|ex [fns' st]];
    simpl; [|done].
  by destruct (forEach _ (toggleStep st) _).
Qed.

Lemma rerenderPageContent_document w :
  let w' := finalState (rerenderPageContent w) in
  allElements (document w') = allElements (document w)
  ∧ innerHTML (document w') = innerHTML (document w)
  ∧ ∀ b token, token ≠ "markdoc__hidden" →
      (token ∈ classList (document w') b ↔ token ∈ classList (document w) b).
Proof.
  unfold rerenderPageContent.
  destruct (forEach _ (reresolveStep _) _) as [[fns' st]|ex [fns' st]];
    simpl; [|done].
  pose proof (toggle_loop_frame st
                (getElementsByClassName (document w) "markdoc__toggleable")
                (document w)) as Hframe.
  by destruct (forEach _ (toggleStep st) _).
Qed.

(** X9: a selection change, whatever its outcome, changes no class other
    than the hidden class, on any element the document had before it. *)
Theorem handlePrefSelectionChange_class_frame e w :
  let wf := finalState (handlePrefSelectionChange e w) in
  ∀ b token,
    b ∈ allElements (document w) →
    token ≠ "markdoc__hidden" →
    (token ∈ classList (document wf) b ↔ token ∈ classList (document w) b).
Proof.
  cut (let wf := finalState (handlePrefSelectionChange e w) in
       ∀ b token, token ≠ "markdoc__hidden" →
         (token ∈ classList (document wf) b
          ↔ token ∈ classList (document w) b)).
  { intros Hall wf b token _. apply Hall. }
  unfold handlePrefSelectionChange.
  destruct (target e) as [[|node]|]; [done| |done].
  destruct (truthy (getAttribute node "data-pref-id")) as [prefId|]; [|done].
  destruct (truthy (getAttribute node "data-option-id")) as [optionId|];
    [|done].
  fold (clicked w prefId optionId).
  pose proof (rerenderChooser_frame (clicked w prefId optionId))
    as (_ & Hcls1 & _).
  destruct (rerenderChooser (clicked w prefId optionId)) as [wc|ex wc];
    simpl in *.
  2: { intros b token _. unfold classList. by rewrite Hcls1. }
  pose proof (rerenderPageContent_document wc) as (_ & _ & Htok2).
  assert (∀ b token, token ≠ "markdoc__hidden" →
            (token ∈ classList (document (finalState (rerenderPageContent wc))) b
             ↔ token ∈ classList (document w) b)) as Htok.
  { intros b token Hne. rewrite Htok2 by done. unfold classList.
    by rewrite Hcls1. }
  destruct (rerenderPageContent wc) as [w2|ex w2]; simpl in *; [|done].
  pose proof (populateRightNav_frame w2) as (_ & Hcls3 & _).
  simpl in *. intros b token Hne. rewrite <- Htok by done.
  unfold classList. by rewrite Hcls3.
Qed.

(** X10: a selection change, whatever its outcome, leaves the configuration
    and the chooser element of the controller as they were: a controller
    that was ready stays ready. *)
Theorem handlePrefSelectionChange_configuration_frame e w :
  let wf := finalState (handlePrefSelectionChange e w) in
  prefOptionsConfig (this wf) = prefOptionsConfig (this w)
  ∧ pagePrefsConfig (this wf) = pagePrefsConfig (this w)
  ∧ chooserElement (this wf) = chooserElement (this w).
Proof.
  unfold handlePrefSelectionChange.
  destruct (target e) as [[|node]|]; [done| |done].
  destruct (truthy (getAttribute node "data-pref-id")) as [prefId|]; [|done].
  destruct (truthy (getAttribute node "data-option-id")) as [optionId|];
    [|done].
  fold (clicked w prefId optionId).
  pose proof (rerenderChooser_configuration (clicked w prefId optionId))
    as (H1 & H2 & H3).
  destruct (rerenderChooser (clicked w prefId optionId)) as [wc|ex wc];
    simpl in *; [|done].
  pose proof (rerenderPageContent_configuration wc) as (H4 & H5 & H6).
  destruct (rerenderPageContent wc) as [w2|ex w2]; simpl in *;
    [|by rewrite H4, H5, H6].
  pose proof (populateRightNav_frame w2) as (Hthis & _).
  simpl in Hthis. by rewrite Hthis, H4, H5, H6.
Qed.

(** X11: an element whose [data-pref-id] or [data-option-id] attribute is
    the empty string is ignored like one without the attribute. *)
Theorem handlePrefSelectionChange_ignores_empty_attributes e w node :
  target e = Some (ElementTarget node) →
  getAttribute node "data-pref-id" = Some EmptyString
  ∨ getAttribute node "data-option-id" = Some EmptyString →
  handlePrefSelectionChange e w = Normal w.
Proof.
  intros Ht Hempty. apply handlePrefSelectionChange_ignored.
  intros node' prefId optionId Ht' Hp Ho.
  rewrite Ht in Ht'. injection Ht' as <-.
  destruct Hempty as [Hattr|Hattr]; rewrite Hattr in *; discriminate.
Qed.

(** X12: when the navigation container is missing, a selection change
    throws only at its last step: the selections, the chooser markup, the
    functions and the visibility of the blocks have all been updated. *)
Theorem handlePrefSelectionChange_missing_nav_after_update
  e w node prefId optionId w1 w2 :
  target e = Some (ElementTarget node) →
  truthy (getAttribute node "data-pref-id") = Some prefId →
  truthy (getAttribute node "data-option-id") = Some optionId →
  getElementById (document w) "TableOfContents" = None →
  rerenderChooser (clicked w prefId optionId) = Normal w1 →
  rerenderPageContent w1 = Normal w2 →
  handlePrefSelectionChange e w
  = Throw
      (Error ("Cannot find right nav element with id " +:+ dquote
              +:+ "TableOfContents" +:+ dquote))
      w2.
Proof.
  intros Ht Hp Ho Hnav Hchooser Hpass.
  rewrite (handlePrefSelectionChange_clicked e w node prefId optionId Ht Hp Ho).
  rewrite Hchooser. simpl. rewrite Hpass. simpl.
  pose proof (rerenderChooser_frame (clicked w prefId optionId))
    as (_ & _ & Hel1).
  rewrite Hchooser in Hel1. simpl in Hel1.
  pose proof (rerenderPageContent_document w1) as (Hel2 & _).
  rewrite Hpass in Hel2. simpl in Hel2.
  unfold populateRightNav.
  rewrite (getElementById_ext (document w) (document w2)) by congruence.
  by rewrite Hnav.
Qed.

End CycleFrames.

(** ** populateRightNav: more on the list it writes *)
Section RightNavMore.
Context `{Collaborators}.
Implicit Types (w : World).

Lemma filter_none {A : Type} (P : A → Prop) `{∀ x, Decision (P x)}
  (l : list A) :
  (∀ x, x ∈ l → ¬ P x) → filter P l = [].
Proof.
  induction l as [|x l IH]; intros Hall; [done|].
  rewrite filter_cons_False by apply Hall, list_elem_of_here.
  apply IH. intros y Hy. by apply Hall, list_elem_of_further.
Qed.

(** X15: when the page has no content heading, or every content heading is
    hidden, the navigation container gets an empty list. *)
Theorem populateRightNav_without_visible_headings w nav :
  getElementById (document w) "TableOfContents" = Some nav →
  (∀ header, header ∈ querySelectorAll_contentHeadings (document w) →
             elementIsHidden (document w) header = true) →
  populateRightNav w
  = Normal (withDocument w (setInnerHTML (document w) nav "<ul></ul>")).
Proof.
  intros Hnav Hhidden. unfold populateRightNav. rewrite Hnav.
  rewrite rightNavHtml_body, filter_none; [done|].
  intros header Hin Hvis. unfold visible in Hvis.
  rewrite (Hhidden header Hin) in Hvis. discriminate.
Qed.

(** X16: the level read from the tag name of a content heading is a number
    from 2 to 6, never [NaN], so the comparisons of [populateRightNav] are
    comparisons of levels. *)
Theorem content_heading_level header :
  matchesContentHeading header = true →
  ∃ n, (2 ≤ n ≤ 6)%nat
       ∧ headerLevel header = Int n
       ∧ ∀ m, Number_gt (headerLevel header) (Int m) = bool_decide (m < n)%nat
              ∧ Number_lt (headerLevel header) (Int m)
                = bool_decide (n < m)%nat.
Proof.
  unfold matchesContentHeading. intros [Htag _]%andb_true_iff.
  apply bool_decide_eq_true in Htag. unfold headerLevel.
  repeat (apply elem_of_cons in Htag as [->|Htag];
          [eexists; split; [|split; [vm_compute; reflexivity|done]]; lia|]).
  by apply elem_of_nil in Htag.
Qed.

Lemma navBody_snoc last headers header :
  ∃ before,
    navBody last (headers ++ [header]) = before +:+ navEntry header.
Proof.
  revert last. induction headers as [|h headers IH]; intros last; simpl.
  - exists (listChange last (headerLevel header)). by rewrite append_nil_r.
  - destruct (IH (headerLevel h)) as [before ->].
    exists (listChange last (headerLevel h) +:+ navEntry h +:+ before).
    by rewrite !append_assoc.
Qed.

(** X17: after the entry of the last visible heading the list is closed
    once, whatever nested lists are still open. *)
Theorem rightNavHtml_closes_one_list doc headers header :
  filter (visible doc) (querySelectorAll_contentHeadings doc)
  = headers ++ [header] →
  ∃ before,
    rightNavHtml doc = before +:+ navEntry header +:+ "</ul>".
Proof.
  intros Hvis. rewrite rightNavHtml_body, Hvis.
  destruct (navBody_snoc (Int 2) headers header) as [before ->].
  exists ("<ul>" +:+ before). by rewrite !append_assoc.
Qed.

End RightNavMore.

(** ** initialize and the life of a page *)
Section Lifecycle.
Context `{Collaborators}.
Implicit Types (w : World) (p : InitParams).

#[local] Arguments expandStep : simpl never.

Lemma handlePrefSelectionChange_keys e w :
  JSRecord.keys
    (ifFunctionsByRef (this (finalState (handlePrefSelectionChange e w))))
  = JSRecord.keys (ifFunctionsByRef (this w)).
Proof.
  unfold handlePrefSelectionChange.
  destruct (target e) as [[|node]|]; [done| |done].
  destruct (truthy (getAttribute node "data-pref-id")) as [prefId|]; [|done].
  destruct (truthy (getAttribute node "data-option-id")) as [optionId|];
    [|done].
  fold (clicked w prefId optionId).
  pose proof (rerenderChooser_frame (clicked w prefId optionId))
    as (Hfns & _).
  destruct (rerenderChooser (clicked w prefId optionId)) as [wc|ex wc];
    simpl in *; [|by rewrite Hfns].
  pose proof (rerenderPageContent_frame wc) as [_ Hk].
  destruct (rerenderPageContent wc) as [w2|ex w2]; simpl in *;
    [|by rewrite Hk, Hfns].
  pose proof (populateRightNav_frame w2) as (Hthis & _).
  simpl in Hthis. by rewrite Hthis, Hk, Hfns.
Qed.

Lemma handlePrefSelectionChange_ready e w :
  let wf := finalState (handlePrefSelectionChange e w) in
  prefOptionsConfig (this wf) = prefOptionsConfig (this w)
  ∧ pagePrefsConfig (this wf) = pagePrefsConfig (this w)
  ∧ chooserElement (this wf) = chooserElement (this w).
Proof.
  unfold handlePrefSelectionChange.
  destruct (target e) as [[|node]|]; [done| |done].
  destruct (truthy (getAttribute node "data-pref-id")) as [prefId|]; [|done].
  destruct (truthy (getAttribute node "data-option-id")) as [optionId|];
    [|done].
  fold (clicked w prefId optionId).
  pose proof (rerenderChooser_configuration (clicked w prefId optionId))
    as (H1 & H2 & H3).
  destruct (rerenderChooser (clicked w prefId optionId)) as [wc|ex wc];
    simpl in *; [|done].
  pose proof (rerenderPageContent_configuration wc) as (H4 & H5 & H6).
  destruct (rerenderPageContent wc) as [w2|ex w2]; simpl in *;
    [|by rewrite H4, H5, H6].
  pose proof (populateRightNav_frame w2) as (Hthis & _).
  simpl in *. by rewrite Hthis, H4, H5, H6.
Qed.

(** When [initialize] returns, every entry of its input was decoded. *)
Lemma initialize_Normal_decodes p w w0 :
  initialize p w = Normal w0 →
  ∀ ref m, JSRecord.get (p_ifFunctionsByRef p) ref = Some m →
           ∃ f, expandClientFunction m = Ok f.
Proof.
  intros Hinit ref m Hm.
  destruct (expandClientFunction m) as [f|ex] eqn:Hf; [eauto|].
  exfalso.
  assert (ref ∈ JSRecord.keys (p_ifFunctionsByRef p)) as Hk
    by (apply get_is_Some; eauto).
  assert (∀ acc, ∃ ex' acc',
            forEach (JSRecord.keys (p_ifFunctionsByRef p))
              (expandStep (p_ifFunctionsByRef p)) acc = Throw ex' acc')
    as Hthrow.
  { induction (JSRecord.keys (p_ifFunctionsByRef p)) as [|k0 ks IH];
      intros acc; [by apply elem_of_nil in Hk|].
    simpl. unfold expandStep at 1.
    destruct (JSRecord.get (p_ifFunctionsByRef p) k0) as [m0|] eqn:Hm0;
      [|eauto].
    destruct (expandClientFunction m0) as [f0|ex0] eqn:Hf0; [|eauto].
    apply elem_of_cons in Hk as [->|Hk]; [congruence|].
    by apply IH. }
  destruct (Hthrow []) as (ex' & acc' & Hrun).
  unfold initialize in Hinit. by rewrite Hrun in Hinit.
Qed.

(** X18: once [initialize] has returned, the controller holds the
    configuration it was given, the chooser element found in the document
    (not the one passed in) and one function per input key other than
    [__proto__]; through any sequence of clicks, failed or not, it keeps
    the configuration, the chooser element and the keys of the
    functions. *)
Theorem initialize_then_clicks p w w0 events :
  initialize p w = Normal w0 →
  NoDup (JSRecord.keys (p_ifFunctionsByRef p)) →
  let wn := handleAll events w0 in
  prefOptionsConfig (this wn) = Some (p_prefOptionsConfig p)
  ∧ pagePrefsConfig (this wn) = Some (p_pagePrefsConfig p)
  ∧ chooserElement (this wn) = getElementById (document w) "markdoc-chooser"
  ∧ is_Some (chooserElement (this wn))
  ∧ JSRecord.keys (ifFunctionsByRef (this wn))
    = filter (λ k, k ≠ "__proto__") (JSRecord.keys (p_ifFunctionsByRef p)).
Proof.
  intros Hinit Hnd.
  assert (prefOptionsConfig (this w0) = Some (p_prefOptionsConfig p)
          ∧ pagePrefsConfig (this w0) = Some (p_pagePrefsConfig p)
          ∧ chooserElement (this w0)
            = getElementById (document w) "markdoc-chooser"
          ∧ is_Some (chooserElement (this w0))
          ∧ JSRecord.keys (ifFunctionsByRef (this w0))
            = filter (λ k, k ≠ "__proto__")
                (JSRecord.keys (p_ifFunctionsByRef p))) as Hstart.
  { destruct (initialize_functions p w Hnd
                (initialize_Normal_decodes p w w0 Hinit)) as (_ & Hkeys & _).
    rewrite Hinit in Hkeys. simpl in Hkeys.
    unfold initialize in Hinit.
    destruct (forEach _ (expandStep _) _) as [fns|ex fns]; [|discriminate].
    simpl in Hinit.
    destruct (getElementById (document w) "markdoc-chooser") as [c|];
      [|discriminate].
    injection Hinit as <-. simpl in *. repeat split; eauto. }
  unfold handleAll. clear Hinit. revert w0 Hstart.
  induction events as [|e events IH]; intros w0 Hstart; simpl; [done|].
  apply IH.
  pose proof (handlePrefSelectionChange_ready e w0) as (H1 & H2 & H3).
  pose proof (handlePrefSelectionChange_keys e w0) as H5.
  destruct Hstart as (S1 & S2 & S3 & S4 & S5).
  simpl in *. rewrite H1, H2, H3, H5. done.
Qed.

Lemma keys_set_cases {A : Type} (o : JSRecord.t A) k v :
  JSRecord.keys (JSRecord.set o k v) = JSRecord.keys o
  ∨ (k ≠ "__proto__"
     ∧ JSRecord.keys (JSRecord.set o k v) = JSRecord.keys o ++ [k]).
Proof.
  destruct (decide (k ∈ JSRecord.keys o)) as [Hin|Hout].
  - left. by apply keys_set_present.
  - destruct (decide (k = "__proto__")) as [->|Hne].
    + left. by rewrite set_proto.
    + right. split; [done|]. by apply keys_set_fresh.
Qed.

(** X21: no pass of [rerenderPageContent] and no selection change, whatever
    its outcome, adds or removes a key of [ifFunctionsByRef]; and whatever
    its input and its outcome, [initialize] stores no function under
    [__proto__], nor does any sequence of clicks after it. *)
Theorem ifFunctionsByRef_keys_stable :
  (∀ w, JSRecord.keys
          (ifFunctionsByRef (this (finalState (rerenderPageContent w))))
        = JSRecord.keys (ifFunctionsByRef (this w)))
  ∧ (∀ e w, JSRecord.keys
              (ifFunctionsByRef
                 (this (finalState (handlePrefSelectionChange e w))))
            = JSRecord.keys (ifFunctionsByRef (this w)))
  ∧ (∀ p w events,
       "__proto__"
       ∉ JSRecord.keys
           (ifFunctionsByRef
              (this (handleAll events (finalState (initialize p w)))))).
Proof.
  split; [intros w; apply rerenderPageContent_frame|].
  split; [apply handlePrefSelectionChange_keys|].
  intros p w events.
  assert ("__proto__"
          ∉ JSRecord.keys
              (ifFunctionsByRef (this (finalState (initialize p w)))))
    as Hstart.
  { assert ("__proto__"
            ∉ JSRecord.keys
                (finalState
                   (forEach (JSRecord.keys (p_ifFunctionsByRef p))
                      (expandStep (p_ifFunctionsByRef p)) []))) as Hinv.
    { apply (forEach_invariant
               (λ fns : JSRecord.t ClientFunction,
                  "__proto__" ∉ JSRecord.keys fns));
        [apply not_elem_of_nil|].
      intros fns0 ref _ Hfns0. unfold expandStep.
      destruct (JSRecord.get (p_ifFunctionsByRef p) ref) as [m|]; [|done].
      destruct (expandClientFunction m) as [f|ex0]; [|done]. simpl.
      destruct (keys_set_cases fns0 ref f) as [->|[Hne ->]]; [done|].
      rewrite not_elem_of_app, list_elem_of_singleton. split; [done|].
      intros Heq. by apply Hne. }
    unfold initialize.
    destruct (forEach _ (expandStep _) _) as [fns|ex fns]; simpl in *;
      [|done].
    by destruct (getElementById (document w) "markdoc-chooser"). }
  unfold handleAll. revert Hstart.
  generalize (finalState (initialize p w)).
  induction events as [|e events IH]; intros w0 Hstart; simpl; [done|].
  apply IH. by rewrite handlePrefSelectionChange_keys.
Qed.

End Lifecycle.

Section InitializeFailures.
Context `{Collaborators}.
Implicit Types (w : World) (p : InitParams).

#[local] Arguments expandStep : simpl never.

(** X19: without an element whose id is [markdoc-chooser], [initialize]
    throws only after it has stored the configuration, the selections and
    the decoded functions (one per input key other than [__proto__]); the
    controller is left with the chooser element that was passed in. *)
Theorem initialize_without_chooser_container p w :
  NoDup (JSRecord.keys (p_ifFunctionsByRef p)) →
  (∀ ref m, JSRecord.get (p_ifFunctionsByRef p) ref = Some m →
            ∃ f, expandClientFunction m = Ok f) →
  getElementById (document w) "markdoc-chooser" = None →
  ∃ w',
    initialize p w
    = Throw
        (Error ("Cannot find chooser element with id " +:+ dquote
                +:+ "markdoc-chooser" +:+ dquote))
        w'
    ∧ chooserElement (this w') = Some (p_chooserElement p)
    ∧ prefOptionsConfig (this w') = Some (p_prefOptionsConfig p)
    ∧ pagePrefsConfig (this w') = Some (p_pagePrefsConfig p)
    ∧ selectedValsByPrefId (this w') = default ∅ (p_selectedValsByPrefId p)
    ∧ JSRecord.keys (ifFunctionsByRef (this w'))
      = filter (λ k, k ≠ "__proto__") (JSRecord.keys (p_ifFunctionsByRef p))
    ∧ document w' = document w.
Proof.
  intros Hnd Hdecode Hchooser.
  destruct (forEach_expand (p_ifFunctionsByRef p)
              (JSRecord.keys (p_ifFunctionsByRef p)) [] Hnd)
    as (fns & Hrun & Hkeys & _).
  { intros k _. apply not_elem_of_nil. }
  { intros k [m Hm]%get_is_Some. destruct (Hdecode k m Hm) as [f Hf]. eauto. }
  unfold initialize. rewrite Hrun. simpl. rewrite Hchooser.
  eexists. split; [reflexivity|]. simpl. by rewrite Hkeys.
Qed.

(** X20: when the codec raises on an entry, [initialize] throws its
    exception at that entry: the functions before it are decoded and
    stored (except under [__proto__]), the ones after it are missing, and
    the chooser container has not been looked up. *)
Theorem initialize_decode_failure p w pre k post m ex :
  JSRecord.keys (p_ifFunctionsByRef p) = pre ++ k :: post →
  NoDup (JSRecord.keys (p_ifFunctionsByRef p)) →
  (∀ k', k' ∈ pre →
     ∃ m' f, JSRecord.get (p_ifFunctionsByRef p) k' = Some m'
             ∧ expandClientFunction m' = Ok f) →
  JSRecord.get (p_ifFunctionsByRef p) k = Some m →
  expandClientFunction m = Raised ex →
  ∃ w',
    initialize p w = Throw ex w'
    ∧ JSRecord.keys (ifFunctionsByRef (this w'))
      = filter (λ k, k ≠ "__proto__") pre
    ∧ (∀ k', k' ∈ pre → k' ≠ "__proto__" →
         ∃ m' f, JSRecord.get (p_ifFunctionsByRef p) k' = Some m'
                 ∧ expandClientFunction m' = Ok f
                 ∧ JSRecord.get (ifFunctionsByRef (this w')) k' = Some f)
    ∧ chooserElement (this w') = Some (p_chooserElement p)
    ∧ document w' = document w.
Proof.
  intros Hsplit Hnd Hpre Hm Hraise.
  rewrite Hsplit in Hnd. apply NoDup_app in Hnd as (Hndpre & _ & _).
  destruct (forEach_expand (p_ifFunctionsByRef p) pre [] Hndpre)
    as (fns & Hrun & Hkeys & Hin & _).
  { intros k' _. apply not_elem_of_nil. }
  { done. }
  assert (forEach (pre ++ k :: post) (expandStep (p_ifFunctionsByRef p)) []
          = Throw ex fns) as Hthrow.
  { apply (forEach_app_throw pre post k _ [] fns fns ex Hrun).
    unfold expandStep. by rewrite Hm, Hraise. }
  unfold initialize. rewrite Hsplit, Hthrow.
  eexists. split; [reflexivity|]. simpl. by rewrite Hkeys.
Qed.

End InitializeFailures.

(** ** The selections after the chooser, and a second pass *)
Section Settled.
Context `{Collaborators}.
Implicit Types (w : World).

#[local] Arguments reresolveStep : simpl never.
#[local] Arguments toggleStep : simpl never.
#[local] Arguments alignStep : simpl never.

(** X22: when [rerenderChooser] returns, the selections hold, for every
    resolved preference whose id is not [__proto__] (the resolver keys each
    by its id), its current value; they are the selections the functions
    are re-evaluated against and the ones the selection change ends
    with. *)
Theorem rerenderChooser_aligns_selections
  w w' pagePrefs prefOptions (resolved : JSRecord.t ResolvedPagePref) :
  pagePrefsConfig (this w) = Some pagePrefs →
  prefOptionsConfig (this w) = Some prefOptions →
  resolveMinifiedPagePrefs pagePrefs prefOptions
    (selectedValsByPrefId (this w)) = Ok resolved →
  NoDup (JSRecord.keys resolved) →
  (∀ k p, (k, p) ∈ resolved → pref_id p = k) →
  rerenderChooser w = Normal w' →
  (∀ k p, (k, p) ∈ resolved → pref_id p ≠ "__proto__" →
     selectedValsByPrefId (this w') !! pref_id p = Some (currentValue p))
  ∧ (∀ e w0 node prefId optionId,
       w = clicked w0 prefId optionId →
       target e = Some (ElementTarget node) →
       truthy (getAttribute node "data-pref-id") = Some prefId →
       truthy (getAttribute node "data-option-id") = Some optionId →
       selectedValsByPrefId (this (finalState (rerenderPageContent w')))
       = selectedValsByPrefId (this w')
       ∧ selectedValsByPrefId
           (this (finalState (handlePrefSelectionChange e w0)))
         = selectedValsByPrefId (this w')).
Proof.
  intros Hpp Hpo Hres Hkeys Hids Hrun.
  split.
  - destruct (rerenderChooser_Normal w w' Hrun)
      as (pp & po & chooser & resolved' & vals & html
          & Hpp' & Hpo' & _ & Hres' & Hvals & _ & ->); simpl.
    rewrite Hpp in Hpp'. rewrite Hpo in Hpo'.
    injection Hpp' as <-. injection Hpo' as <-.
    rewrite Hres in Hres'. injection Hres' as <-.
    rewrite forEach_align_foldl in Hvals by (intros; by apply get_elem_of).
    injection Hvals as <-. intros k p Hin Hne.
    eapply foldl_align_lookup; [|done..].
    by rewrite (keyed_by_id_keys resolved Hids).
  - intros e w0 node prefId optionId -> Ht Hp Ho.
    pose proof (rerenderPageContent_frame w') as [Hsel _].
    split; [done|].
    rewrite (handlePrefSelectionChange_clicked e w0 node prefId optionId
               Ht Hp Ho), Hrun. simpl.
    destruct (rerenderPageContent w') as [w2|ex w2]; simpl in *; [|done].
    pose proof (populateRightNav_frame w2) as (Hthis & _).
    simpl in Hthis. by rewrite Hthis.
Qed.

(** X23: with an evaluator whose results are fixed points, on a page none
    of whose blocks is named like a property of [Object.prototype], a
    second pass of [rerenderPageContent] under the same selections records
    no display status and returns the world as it found it. *)
Theorem rerenderPageContent_second_pass_idle w w' :
  (∀ f vars f', reresolveFunctionNode f vars = Ok f' →
                reresolveFunctionNode f' vars = Ok f') →
  NoDup (JSRecord.keys (ifFunctionsByRef (this w))) →
  (∀ block ref,
     block ∈ toggleables w →
     getAttribute block "data-if" = Some ref →
     ref ∉ PlainObject.prototypeKeys) →
  rerenderPageContent w = Normal w' →
  selectedValsByPrefId (this w') = selectedValsByPrefId (this w)
  ∧ forEach (JSRecord.keys (ifFunctionsByRef (this w')))
      (reresolveStep (selectedValsByPrefId (this w')))
      (ifFunctionsByRef (this w'), ∅)
    = Normal (ifFunctionsByRef (this w'), ∅)
  ∧ rerenderPageContent w' = Normal w'.
Proof.
  intros Hfix Hkeys Hplain Hpass. split.
  { pose proof (rerenderPageContent_frame w) as [Hsel _].
    by rewrite Hpass in Hsel. }
  split; [by apply (rerenderPageContent_second_loop w w')|].
  apply (rerenderPageContent_settled w w'); [done..| |done].
  intros t ref Ht Hr. apply (Hplain t ref Ht). by apply truthy_Some.
Qed.

End Settled.

(** ** The error pages *)
Import SpecModel SamplePage ErrorPages PrototypeNames.

Lemma rerenderPageContent_keeps_blocks_in_sync_witness :
  hiddenFlag (document (finalState (rerenderPageContent selected))) blockB
  = false.
Proof.
  assert (toggleables selected = [blockB]) as Hblocks
    by (vm_compute; reflexivity).
  refine (proj2 (rerenderPageContent_keeps_blocks_in_sync selected
                   (finalState (rerenderPageContent selected))
                   ltac:(apply (bool_decide_unpack _); vm_compute; exact I)
                   ltac:(apply (bool_decide_unpack _); vm_compute; exact I)
                   ltac:(apply returned_finalState; vm_compute; reflexivity)
                   _ _)
            blockB "ref-b" (Equals "pkg" "windows-beta" true) _ _ _).
  - intros block ref Hin Hattr. rewrite Hblocks in Hin.
    apply list_elem_of_singleton in Hin as ->.
    injection Hattr as <-.
    apply (bool_decide_unpack _). vm_compute. exact I.
  - intros block ref f Hin Hattr Hf. rewrite Hblocks in Hin.
    apply list_elem_of_singleton in Hin as ->.
    injection Hattr as <-. injection Hf as <-. vm_compute. reflexivity.
  - vm_compute. apply list_elem_of_here.
  - reflexivity.
  - vm_compute. reflexivity.
Defined.

Lemma rerenderPageContent_evaluator_failure_witness :
  ∃ e' w', rerenderPageContent ready = Throw e' w'
           ∧ document w' = document ready
           ∧ selectedValsByPrefId (this w') = selectedValsByPrefId (this ready)
           ∧ JSRecord.keys (ifFunctionsByRef (this w'))
             = JSRecord.keys (ifFunctionsByRef (this ready)).
Proof.
  apply (rerenderPageContent_evaluator_failure ready "ref-b" gateB
           (unresolvedVariable "pkg")).
  - apply (bool_decide_unpack _). vm_compute. exact I.
  - reflexivity.
  - vm_compute. reflexivity.
Defined.

Lemma rerenderPageContent_missing_ref_stops_midway_witness :
  ∃ w', rerenderPageContent twoBlocks
        = Throw (Error "No ref found on toggleable element") w'
        ∧ hiddenFlag (document w') blockB = false.
Proof.
  destruct (rerenderPageContent_missing_ref_stops_midway twoBlocks
              [blockB] blockNoRef []
              ltac:(apply (bool_decide_unpack _); vm_compute; exact I)
              ltac:(apply (bool_decide_unpack _); vm_compute; exact I))
    as (w' & Hthrow & Hfns & Hpre & _).
  - intros ref f Hf. simpl in Hf.
    destruct (decide ("ref-b" = ref)); [|discriminate].
    injection Hf as <-. eexists. vm_compute. reflexivity.
  - vm_compute. reflexivity.
  - intros b Hb. apply list_elem_of_singleton in Hb as ->.
    vm_compute. eauto.
  - vm_compute. reflexivity.
  - exists w'. split; [done|].
    destruct (Hfns "ref-b" gateB ltac:(reflexivity)) as (f' & Hres & Hget).
    vm_compute in Hres. injection Hres as <-.
    apply (Hpre blockB "ref-b" gateB _ ltac:(apply list_elem_of_here)
             ltac:(reflexivity) ltac:(reflexivity) Hget).
    simpl. discriminate.
Defined.

Lemma rerenderPageContent_hides_headings_below_witness :
  elementIsHidden (document (finalState (rerenderPageContent hiding)))
    headingB = true.
Proof.
  refine (proj1 (rerenderPageContent_hides_headings_below hiding
                   (finalState (rerenderPageContent hiding))
                   blockB "ref-b" (Equals "pkg" "windows-beta" true)
                   (Equals "pkg" "windows-beta" false) headingB
                   ltac:(apply (bool_decide_unpack _); vm_compute; exact I)
                   ltac:(apply (bool_decide_unpack _); vm_compute; exact I)
                   ltac:(apply returned_finalState; vm_compute; reflexivity)
                   _
                   ltac:(reflexivity) ltac:(reflexivity)
                   ltac:(vm_compute; reflexivity)
                   ltac:(reflexivity) ltac:(reflexivity)
                   ltac:(vm_compute; reflexivity))).
  vm_compute. apply list_elem_of_here.
Defined.

Lemma handlePrefSelectionChange_unconfigured_records_click_witness :
  handlePrefSelectionChange (click "os" "windows") (mkWorld uninitialized page)
  = Throw cannotRerender (clicked (mkWorld uninitialized page) "os" "windows")
  ∧ selectedValsByPrefId
      (this (clicked (mkWorld uninitialized page) "os" "windows"))
    = <["os" := "windows"]> ∅.
Proof.
  destruct (handlePrefSelectionChange_unconfigured_records_click
              (click "os" "windows") (mkWorld uninitialized page)
              (pill "os" "windows") "os" "windows"
              ltac:(reflexivity) ltac:(reflexivity) ltac:(reflexivity)
              ltac:(left; reflexivity))
    as (Hthrow & Hrecorded & _).
  split; [exact Hthrow|]. apply Hrecorded. discriminate.
Defined.

Lemma handlePrefSelectionChange_resolver_failure_records_click_witness :
  handlePrefSelectionChange (click "os" "windows") misconfigured
  = Throw (Error "No options for os") (clicked misconfigured "os" "windows")
  ∧ selectedValsByPrefId (this (clicked misconfigured "os" "windows"))
    = <["os" := "windows"]> ∅.
Proof.
  destruct (handlePrefSelectionChange_resolver_failure_records_click
              (click "os" "windows") misconfigured (pill "os" "windows")
              "os" "windows" brokenDefinitions optionDefinitions chooser
              (Error "No options for os")
              ltac:(reflexivity) ltac:(reflexivity) ltac:(reflexivity)
              ltac:(reflexivity) ltac:(reflexivity) ltac:(reflexivity)
              ltac:(vm_compute; reflexivity))
    as (Hthrow & Hrecorded).
  split; [exact Hthrow|]. apply Hrecorded. discriminate.
Defined.

Lemma rerenderChooser_markup_failure_after_alignment_witness :
  ∃ w', rerenderChooser strictReady = Throw (Error "Cannot render chooser") w'
        ∧ document w' = document strictReady
        ∧ selectedValsByPrefId (this w') !! "pkg" = Some "linux-stable".
Proof.
  destruct (rerenderChooser_markup_failure_after_alignment strictReady
              definitions optionDefinitions chooser
              [("os", mkResolvedPreference "os" ["linux"; "windows"] "linux");
               ("pkg", mkResolvedPreference "pkg"
                         ["linux-stable"; "linux-beta"] "linux-stable")]
              (Error "Cannot render chooser")
              ltac:(reflexivity) ltac:(reflexivity) ltac:(reflexivity)
              ltac:(vm_compute; reflexivity)
              ltac:(apply (bool_decide_unpack _); vm_compute; exact I)
              ltac:(intros k p Hin;
                    repeat (apply elem_of_cons in Hin
                              as [[= -> ->]|Hin]; [reflexivity|]);
                    by apply elem_of_nil in Hin)
              ltac:(reflexivity))
    as (w' & Hthrow & Hdoc & _ & Hsel).
  exists w'. split; [done|]. split; [done|].
  apply (Hsel "pkg" (mkResolvedPreference "pkg"
                       ["linux-stable"; "linux-beta"] "linux-stable")).
  - apply list_elem_of_further, list_elem_of_here.
  - discriminate.
Defined.

Lemma handlePrefSelectionChange_keeps_selection_keys_witness :
  is_Some
    (selectedValsByPrefId
       (this (finalState
                (handlePrefSelectionChange (click "os" "linux") selected)))
     !! "pkg").
Proof.
  apply (handlePrefSelectionChange_keeps_selection_keys
           (click "os" "linux") selected "pkg").
  vm_compute. eauto.
Defined.

Lemma handlePrefSelectionChange_class_frame_witness :
  "markdoc__toggleable"
  ∈ classList
      (document (finalState
                   (handlePrefSelectionChange (click "os" "windows") ready)))
      blockB
  ↔ "markdoc__toggleable" ∈ classList (document ready) blockB.
Proof.
  apply (handlePrefSelectionChange_class_frame (click "os" "windows") ready).
  - simpl. do 2 apply list_elem_of_further. apply list_elem_of_here.
  - discriminate.
Defined.

Lemma handlePrefSelectionChange_ignores_empty_attributes_witness :
  handlePrefSelectionChange clickEmptyOption ready = Normal ready.
Proof.
  eapply (handlePrefSelectionChange_ignores_empty_attributes
            clickEmptyOption ready).
  - reflexivity.
  - right. vm_compute. reflexivity.
Defined.

Lemma handlePrefSelectionChange_missing_nav_after_update_witness :
  let w1 := finalState (rerenderChooser (clicked noNav "os" "windows")) in
  handlePrefSelectionChange (click "os" "windows") noNav
  = Throw rightNavMissing (finalState (rerenderPageContent w1)).
Proof.
  apply (handlePrefSelectionChange_missing_nav_after_update
           (click "os" "windows") noNav (pill "os" "windows") "os" "windows"
           (finalState (rerenderChooser (clicked noNav "os" "windows")))).
  - reflexivity.
  - reflexivity.
  - reflexivity.
  - vm_compute. reflexivity.
  - apply (returned_finalState (rerenderChooser (clicked noNav "os" "windows"))).
    vm_compute. reflexivity.
  - apply returned_finalState. vm_compute. reflexivity.
Defined.

Lemma populateRightNav_without_visible_headings_witness :
  populateRightNav (mkWorld uninitialized pageOnlyHiddenHeading)
  = Normal (mkWorld uninitialized
              (setInnerHTML pageOnlyHiddenHeading rightNav "<ul></ul>")).
Proof.
  apply (populateRightNav_without_visible_headings
           (mkWorld uninitialized pageOnlyHiddenHeading) rightNav).
  - vm_compute. reflexivity.
  - intros header Hin.
    assert (querySelectorAll_contentHeadings pageOnlyHiddenHeading
            = [headingB]) as Hheadings by (vm_compute; reflexivity).
    simpl in Hin. rewrite Hheadings in Hin.
    apply list_elem_of_singleton in Hin as ->. vm_compute. reflexivity.
Defined.

Lemma content_heading_level_witness :
  ∃ n, (2 ≤ n ≤ 6)%nat
       ∧ headerLevel headingD = Int n
       ∧ ∀ m, Number_gt (headerLevel headingD) (Int m)
              = bool_decide (m < n)%nat
              ∧ Number_lt (headerLevel headingD) (Int m)
                = bool_decide (n < m)%nat.
Proof.
  apply (content_heading_level headingD). vm_compute. reflexivity.
Defined.

Lemma rightNavHtml_closes_one_list_witness :
  ∃ before,
    rightNavHtml pageDeepHeading = before +:+ navEntry headingD +:+ "</ul>".
Proof.
  apply (rightNavHtml_closes_one_list pageDeepHeading [headingA] headingD).
  vm_compute. reflexivity.
Defined.

Lemma initialize_then_clicks_witness :
  let w0 := finalState (initialize params (mkWorld uninitialized page)) in
  let wn :=
    handleAll [click "os" "windows"; clickNoOption;
               click "pkg" "windows-beta"] w0 in
  prefOptionsConfig (this wn) = Some optionDefinitions
  ∧ pagePrefsConfig (this wn) = Some definitions
  ∧ chooserElement (this wn) = getElementById page "markdoc-chooser"
  ∧ is_Some (chooserElement (this wn))
  ∧ JSRecord.keys (ifFunctionsByRef (this wn)) = ["ref-b"].
Proof.
  apply (initialize_then_clicks params (mkWorld uninitialized page)
           (finalState (initialize params (mkWorld uninitialized page)))
           [click "os" "windows"; clickNoOption; click "pkg" "windows-beta"]).
  - apply returned_finalState. vm_compute. reflexivity.
  - apply (bool_decide_unpack _). vm_compute. exact I.
Defined.

Lemma initialize_without_chooser_container_witness :
  ∃ w', initialize params (mkWorld uninitialized pageNoChooser)
        = Throw chooserMissing w'
        ∧ chooserElement (this w') = Some chooser.
Proof.
  destruct (initialize_without_chooser_container params
              (mkWorld uninitialized pageNoChooser)
              ltac:(apply (bool_decide_unpack _); vm_compute; exact I))
    as (w' & Hthrow & Hchooser & _).
  - intros ref m _. exists m. reflexivity.
  - vm_compute. reflexivity.
  - eauto.
Defined.

Lemma initialize_decode_failure_witness :
  ∃ w', initialize strictParams strictUninitialized
        = Throw (Error "Cannot expand function") w'
        ∧ JSRecord.keys (ifFunctionsByRef (this w')) = ["ref-a"].
Proof.
  destruct (initialize_decode_failure strictParams strictUninitialized
              ["ref-a"] "ref-x" ["ref-c"] (Equals "os" "windows" true)
              (Error "Cannot expand function")
              ltac:(reflexivity)
              ltac:(apply (bool_decide_unpack _); vm_compute; exact I))
    as (w' & Hthrow & Hkeys & _).
  - intros k' Hk'. apply list_elem_of_singleton in Hk' as ->.
    eexists _, _. split; reflexivity.
  - reflexivity.
  - reflexivity.
  - eauto.
Defined.

Lemma rerenderChooser_aligns_selections_witness :
  let w' := finalState (rerenderChooser (clicked ready "os" "windows")) in
  selectedValsByPrefId (this w') !! "os" = Some "windows"
  ∧ selectedValsByPrefId (this w') !! "pkg" = Some "windows-stable".
Proof.
  pose proof
    (proj1 (rerenderChooser_aligns_selections
              (clicked ready "os" "windows")
              (finalState (rerenderChooser (clicked ready "os" "windows")))
              definitions optionDefinitions resolvedWindows
              ltac:(reflexivity) ltac:(reflexivity)
              ltac:(vm_compute; reflexivity)
              ltac:(apply (bool_decide_unpack _); vm_compute; exact I)
              ltac:(intros k p Hin;
                    repeat (apply elem_of_cons in Hin
                              as [[= -> ->]|Hin]; [reflexivity|]);
                    by apply elem_of_nil in Hin)
              ltac:(apply returned_finalState; vm_compute; reflexivity)))
    as Hall.
  split.
  - refine (Hall "os" (mkResolvedPreference "os" ["linux"; "windows"] "windows")
              _ _); [apply list_elem_of_here | discriminate].
  - refine (Hall "pkg"
              (mkResolvedPreference "pkg" ["windows-stable"; "windows-beta"]
                 "windows-stable") _ _);
      [apply list_elem_of_further, list_elem_of_here | discriminate].
Defined.

Lemma rerenderPageContent_second_pass_idle_witness :
  let w' := finalState (rerenderPageContent selected) in
  JSRecord.get (ifFunctionsByRef (this w')) "ref-b"
  = Some (Equals "pkg" "windows-beta" true)
  ∧ rerenderPageContent w' = Normal w'.
Proof.
  split; [vm_compute; reflexivity|].
  apply (rerenderPageContent_second_pass_idle selected).
  - intros f vars f'. apply reevaluate_fixed.
  - apply (bool_decide_unpack _). vm_compute. exact I.
  - intros block ref Hin Hattr.
    assert (toggleables selected = [blockB]) as Hblocks
      by (vm_compute; reflexivity).
    rewrite Hblocks in Hin. apply list_elem_of_singleton in Hin as ->.
    injection Hattr as <-.
    apply (bool_decide_unpack _). vm_compute. exact I.
  - apply returned_finalState. vm_compute. reflexivity.
Defined.

Lemma rerenderPageContent_shows_inherited_names_witness :
  let w' := finalState (rerenderPageContent settledToString) in
  hiddenFlag (document settledToString) blockToString = true
  ∧ JSRecord.get (ifFunctionsByRef (this w')) "toString"
    = Some (Equals "pkg" "windows-beta" false)
  ∧ hiddenFlag (document w') blockToString = false.
Proof.
  split; [vm_compute; reflexivity|].
  split; [vm_compute; reflexivity|].
  apply (rerenderPageContent_shows_inherited_names settledToString
           (finalState (rerenderPageContent settledToString))
           blockToString "toString").
  - apply (bool_decide_unpack _). vm_compute. exact I.
  - apply (bool_decide_unpack _). vm_compute. exact I.
  - apply returned_finalState. vm_compute. reflexivity.
  - vm_compute. apply list_elem_of_here.
  - reflexivity.
  - apply (bool_decide_unpack _). vm_compute. exact I.
  - intros (f & f' & Hf & Hf' & Hne). simpl in Hf.
    destruct (decide ("toString" = "toString")); [|done].
    injection Hf as <-. vm_compute in Hf'. injection Hf' as <-.
    by apply Hne.
Defined.
